(** * Aplicaciones-Educativas: the catalogue filter, the image fallback
      chain, the review effect and the PDF text sanitiser

    A shallow embedding of [App.tsx], [types.ts], [components/AppCard.tsx]
    and [components/AppDetailModal.tsx].  JavaScript strings are sequences
    of UTF-16 code units, arrays are lists, React state is a record that is
    passed explicitly, and the platform functions the components call
    ([String.prototype.toLowerCase], [new URL(..).hostname]) are section
    variables. *)

From Stdlib Require Import List NArith Bool Lia String Ascii Arith.
From Stdlib Require DecimalString.
Import ListNotations.

(* ------------------------------------------------------------------ *)
(** ** JavaScript values used by the components *)

Module JS.

(** A JavaScript string: its UTF-16 code units. *)
Definition jsstring : Type := list N.

(** An ASCII literal of the source, as code units. *)
Definition js (s : string) : jsstring :=
  List.map N_of_ascii (list_ascii_of_string s).

(** [a === b] on strings. *)
Fixpoint jsstring_eqb (a b : jsstring) : bool :=
  match a, b with
  | [], [] => true
  | c :: a', d :: b' => N.eqb c d && jsstring_eqb a' b'
  | _, _ => false
  end.

(** [s.startsWith(p)], the position test inside [includes]. *)
Fixpoint startsWith (s p : jsstring) {struct p} : bool :=
  match p, s with
  | [], _ => true
  | _ :: _, [] => false
  | c :: p', d :: s' => N.eqb c d && startsWith s' p'
  end.

(** [s.includes(p)]: [p] occurs in [s] at some position. *)
Fixpoint String_includes (s p : jsstring) : bool :=
  startsWith s p ||
  match s with
  | [] => false
  | _ :: s' => String_includes s' p
  end.

(** [arr.includes(x)] on an array of strings. *)
Definition Array_includes (arr : list jsstring) (x : jsstring) : bool :=
  existsb (jsstring_eqb x) arr.

(** [arr.some(p)] and [arr.filter(p)]. *)
Definition Array_some {A} (p : A -> bool) (arr : list A) : bool :=
  existsb p arr.

Definition Array_filter {A} (p : A -> bool) (arr : list A) : list A :=
  List.filter p arr.

(** [String(n)] for a non-negative integer. *)
Definition Number_toString (n : N) : jsstring :=
  js (DecimalString.NilEmpty.string_of_uint (N.to_uint n)).

(** Truthiness of a [number | null] holding a non-negative integer. *)
Definition truthy (v : option N) : bool :=
  match v with
  | Some n => negb (N.eqb n 0)
  | None => false
  end.

(** The simple lower-case mapping on Basic Latin and Latin-1 letters;
    every other code unit is left alone.  It instantiates [toLowerCase]
    in the examples. *)
Definition lower_unit (c : N) : N :=
  if (N.leb 65 c && N.leb c 90) then c + 32
  else if (N.leb 192 c && N.leb c 222 && negb (N.eqb c 215)) then c + 32
  else c.

Definition latin1_toLowerCase (s : jsstring) : jsstring :=
  List.map lower_unit s.

(** A fragment of [new URL(s).hostname]: absolute [http://] and
    [https://] addresses with a non-empty host that ends at the first
    [/], [?], [#] or [:]; [None] stands for the [TypeError] of the
    constructor.  It instantiates the URL parser in the examples. *)
Fixpoint host_prefix (s : jsstring) : jsstring :=
  match s with
  | [] => []
  | c :: s' =>
      if N.eqb c 47 || N.eqb c 63 || N.eqb c 35 || N.eqb c 58 then []
      else c :: host_prefix s'
  end.

Definition after_prefix (p s : jsstring) : option jsstring :=
  if startsWith s p then Some (skipn (List.length p) s) else None.

Definition simple_hostname (s : jsstring) : option jsstring :=
  let rest :=
    match after_prefix (js "https://") s with
    | Some r => Some r
    | None => after_prefix (js "http://") s
    end in
  match rest with
  | Some r =>
      match host_prefix r with
      | [] => None
      | h => Some h
      end
  | None => None
  end.

End JS.

Import JS.

(* ------------------------------------------------------------------ *)
(** ** [types.ts] *)

Inductive Language : Type := Lang_es | Lang_eu.

(** [a === b] on language tags. *)
Definition Language_eqb (a b : Language) : bool :=
  match a, b with
  | Lang_es, Lang_es | Lang_eu, Lang_eu => true
  | _, _ => false
  end.

Inductive UserRole : Type := TEACHER | STUDENT | BOTH.

Inductive AppCategory : Type :=
  | GAMIFICATION | CONTENT_CREATION | MANAGEMENT
  | ASSESSMENT | COLLABORATION | OTHER.

Inductive EducationStage : Type :=
  | INFANTIL | PRIMARIA | SECUNDARIA | BACHILLERATO | FP | UNIVERSIDAD.

Inductive PriceModel : Type := Gratis | Freemium | Pago.

(** The string value of each enumeration member (the letter o with an
    acute accent is code unit 243). *)
Definition UserRole_value (r : UserRole) : jsstring :=
  match r with
  | TEACHER => js "Docente"
  | STUDENT => js "Alumnado"
  | BOTH => js "Ambos"
  end.

Definition AppCategory_value (c : AppCategory) : jsstring :=
  match c with
  | GAMIFICATION => js "Gamificaci" ++ [243%N] ++ js "n"
  | CONTENT_CREATION => js "Creaci" ++ [243%N] ++ js "n de Contenido"
  | MANAGEMENT => js "Gesti" ++ [243%N] ++ js "n"
  | ASSESSMENT => js "Evaluaci" ++ [243%N] ++ js "n"
  | COLLABORATION => js "Colaboraci" ++ [243%N] ++ js "n"
  | OTHER => js "Otros"
  end.

Definition EducationStage_value (s : EducationStage) : jsstring :=
  match s with
  | INFANTIL => js "Infantil"
  | PRIMARIA => js "Primaria"
  | SECUNDARIA => js "Secundaria"
  | BACHILLERATO => js "Bachillerato"
  | FP => js "FP"
  | UNIVERSIDAD => js "Universidad"
  end.

Definition PriceModel_value (p : PriceModel) : jsstring :=
  match p with
  | Gratis => js "Gratis"
  | Freemium => js "Freemium"
  | Pago => js "Pago"
  end.

Record LocalizedText : Type := { es : jsstring; eu : jsstring }.

Record LocalizedList : Type := { es_list : list jsstring; eu_list : list jsstring }.

(** [text[language]]. *)
Definition localized (t : LocalizedText) (l : Language) : jsstring :=
  match l with
  | Lang_es => es t
  | Lang_eu => eu t
  end.

Record EduApp : Type := {
  id : jsstring;
  name : jsstring;
  description : LocalizedText;
  category : AppCategory;
  targetAudience : UserRole;
  stages : list EducationStage;
  priceModel : PriceModel;
  website : jsstring;
  iconUrl : jsstring;
  features : LocalizedList;
  minAge : option N
}.

Record AIPrivacyAnalysis : Type := {
  gdprCompliant : bool;
  dataCollected : jsstring;
  ageWarning : jsstring;
  complianceSummary : jsstring
}.

Record AIReview : Type := {
  summary : jsstring;
  teacherTip : jsstring;
  studentActivity : jsstring;
  pros : list jsstring;
  cons : list jsstring;
  privacy : AIPrivacyAnalysis
}.

(* ------------------------------------------------------------------ *)
(** ** [App.tsx]: the filter state and the filter *)

Module App.

Record State : Type := {
  language : Language;
  searchTerm : jsstring;
  selectedCategories : list jsstring;
  selectedStages : list jsstring;
  selectedRoles : list jsstring;
  selectedPrices : list jsstring;
  selectedApp : option EduApp
}.

Definition setLanguage (l : Language) (st : State) : State :=
  {| language := l; searchTerm := searchTerm st;
     selectedCategories := selectedCategories st;
     selectedStages := selectedStages st;
     selectedRoles := selectedRoles st;
     selectedPrices := selectedPrices st;
     selectedApp := selectedApp st |}.

Definition setSearchTerm (q : jsstring) (st : State) : State :=
  {| language := language st; searchTerm := q;
     selectedCategories := selectedCategories st;
     selectedStages := selectedStages st;
     selectedRoles := selectedRoles st;
     selectedPrices := selectedPrices st;
     selectedApp := selectedApp st |}.

Definition setSelectedCategories (v : list jsstring) (st : State) : State :=
  {| language := language st; searchTerm := searchTerm st;
     selectedCategories := v;
     selectedStages := selectedStages st;
     selectedRoles := selectedRoles st;
     selectedPrices := selectedPrices st;
     selectedApp := selectedApp st |}.

Definition setSelectedStages (v : list jsstring) (st : State) : State :=
  {| language := language st; searchTerm := searchTerm st;
     selectedCategories := selectedCategories st;
     selectedStages := v;
     selectedRoles := selectedRoles st;
     selectedPrices := selectedPrices st;
     selectedApp := selectedApp st |}.

Definition setSelectedRoles (v : list jsstring) (st : State) : State :=
  {| language := language st; searchTerm := searchTerm st;
     selectedCategories := selectedCategories st;
     selectedStages := selectedStages st;
     selectedRoles := v;
     selectedPrices := selectedPrices st;
     selectedApp := selectedApp st |}.

Definition setSelectedPrices (v : list jsstring) (st : State) : State :=
  {| language := language st; searchTerm := searchTerm st;
     selectedCategories := selectedCategories st;
     selectedStages := selectedStages st;
     selectedRoles := selectedRoles st;
     selectedPrices := v;
     selectedApp := selectedApp st |}.

(** [useState] initial values. *)
Definition initial : State :=
  {| language := Lang_es; searchTerm := [];
     selectedCategories := []; selectedStages := [];
     selectedRoles := []; selectedPrices := [];
     selectedApp := None |}.

Definition toggleLanguage (st : State) : State :=
  setLanguage (if Language_eqb (language st) Lang_es then Lang_eu else Lang_es) st.

Definition clearFilters (st : State) : State :=
  setSelectedPrices []
    (setSelectedRoles []
      (setSelectedStages []
        (setSelectedCategories []
          (setSearchTerm [] st)))).

(** [toggleOption] of the multi-select drop-down. *)
Definition toggleOption (selectedValues : list jsstring) (value : jsstring)
  : list jsstring :=
  if Array_includes selectedValues value
  then Array_filter (fun v => negb (jsstring_eqb v value)) selectedValues
  else selectedValues ++ [value].

Definition activeFilterCount (st : State) : nat :=
  List.length (selectedCategories st) + List.length (selectedStages st)
  + List.length (selectedRoles st) + List.length (selectedPrices st).

Definition matchesCategory (selected : list jsstring) (app : EduApp) : bool :=
  Nat.eqb (List.length selected) 0
  || Array_includes selected (AppCategory_value (category app)).

Definition matchesStage (selected : list jsstring) (app : EduApp) : bool :=
  Nat.eqb (List.length selected) 0
  || Array_some (fun s => Array_includes selected (EducationStage_value s))
                (stages app).

Definition matchesRole (selected : list jsstring) (app : EduApp) : bool :=
  Nat.eqb (List.length selected) 0
  || Array_some
       (fun role =>
          if jsstring_eqb (UserRole_value (targetAudience app))
                          (UserRole_value BOTH)
          then true
          else jsstring_eqb (UserRole_value (targetAudience app)) role)
       selected.

Definition matchesPrice (selected : list jsstring) (app : EduApp) : bool :=
  Nat.eqb (List.length selected) 0
  || Array_includes selected (PriceModel_value (priceModel app)).

Section WithPlatform.

(** [String.prototype.toLowerCase]. *)
Variable toLowerCase : jsstring -> jsstring.

Definition matchesSearch (q : jsstring) (app : EduApp) : bool :=
  String_includes (toLowerCase (name app)) (toLowerCase q)
  || String_includes (toLowerCase (es (description app))) (toLowerCase q)
  || String_includes (toLowerCase (eu (description app))) (toLowerCase q).

(** The callback of [APP_DATA.filter]. *)
Definition passes (q : jsstring) (cats stgs roles prices : list jsstring)
           (app : EduApp) : bool :=
  matchesSearch q app && matchesCategory cats app && matchesStage stgs app
  && matchesRole roles app && matchesPrice prices app.

(** The body of the [useMemo]: a function of the catalogue and of the
    five dependencies. *)
Definition filter_catalog (APP_DATA : list EduApp) (q : jsstring)
           (cats stgs roles prices : list jsstring) : list EduApp :=
  Array_filter (passes q cats stgs roles prices) APP_DATA.

Definition filteredApps (APP_DATA : list EduApp) (st : State) : list EduApp :=
  filter_catalog APP_DATA (searchTerm st) (selectedCategories st)
                 (selectedStages st) (selectedRoles st) (selectedPrices st).

End WithPlatform.

End App.


(* ------------------------------------------------------------------ *)
(** ** The filter as the specification words it *)

Module FilterSpec.

Section WithPlatform.

Variable toLowerCase : jsstring -> jsstring.

(** [q] occurs in [s] once both are lower-cased. *)
Definition ci_substring (q s : jsstring) : Prop :=
  exists pre post, toLowerCase s = pre ++ toLowerCase q ++ post.

Definition text_match (q : jsstring) (e : EduApp) : Prop :=
  q = [] \/ ci_substring q (name e)
  \/ ci_substring q (es (description e))
  \/ ci_substring q (eu (description e)).

Definition category_match (S : list jsstring) (e : EduApp) : Prop :=
  S = [] \/ In (AppCategory_value (category e)) S.

Definition stage_match (S : list jsstring) (e : EduApp) : Prop :=
  S = [] \/ exists s, In s (stages e) /\ In (EducationStage_value s) S.

Definition role_match (S : list jsstring) (e : EduApp) : Prop :=
  S = [] \/ targetAudience e = BOTH \/ In (UserRole_value (targetAudience e)) S.

Definition price_match (S : list jsstring) (e : EduApp) : Prop :=
  S = [] \/ In (PriceModel_value (priceModel e)) S.

Definition all_match (q : jsstring) (S_cat S_stage S_role S_price : list jsstring)
           (e : EduApp) : Prop :=
  text_match q e /\ category_match S_cat e /\ stage_match S_stage e
  /\ role_match S_role e /\ price_match S_price e.

End WithPlatform.

(** [R] is [C] restricted to the entries that satisfy [P], in [C]'s order
    and with [C]'s multiplicities. *)
Inductive restricted_to (P : EduApp -> Prop) : list EduApp -> list EduApp -> Prop :=
  | restricted_nil : restricted_to P [] []
  | restricted_keep e C R :
      P e -> restricted_to P C R -> restricted_to P (e :: C) (e :: R)
  | restricted_drop e C R :
      ~ P e -> restricted_to P C R -> restricted_to P (e :: C) R.

End FilterSpec.

(* ------------------------------------------------------------------ *)
(** ** [components/AppCard.tsx]: the image source chain and the age badge *)

(** What the logo container renders. *)
Inductive Logo : Type :=
  | Img (src : jsstring)
  | CategoryPlaceholder (c : AppCategory).

Record ImgState : Type := { imgSrc : jsstring; showPlaceholder : bool }.

Definition setImgSrc (v : jsstring) (st : ImgState) : ImgState :=
  {| imgSrc := v; showPlaceholder := showPlaceholder st |}.

Definition setShowPlaceholder (v : bool) (st : ImgState) : ImgState :=
  {| imgSrc := imgSrc st; showPlaceholder := v |}.

(** The template literal of the favicon service. *)
Definition favicon_url (domain : jsstring) : jsstring :=
  js "https://www.google.com/s2/favicons?domain=" ++ domain ++ js "&sz=128".

Inductive AgeStyle : Type := Rose_Lock | Emerald_Shield.

Module AppCard.

(** [useState(app.iconUrl)], [useState(false)]. *)
Definition init (app : EduApp) : ImgState :=
  {| imgSrc := iconUrl app; showPlaceholder := false |}.

Definition render (app : EduApp) (st : ImgState) : Logo :=
  if negb (showPlaceholder st) then Img (imgSrc st)
  else CategoryPlaceholder (category app).

Section WithURL.

(** [new URL(s).hostname]; [None] when the constructor throws. *)
Variable URL_hostname : jsstring -> option jsstring.

Definition handleImgError (app : EduApp) (st : ImgState) : ImgState :=
  if jsstring_eqb (imgSrc st) (iconUrl app) then
    match URL_hostname (website app) with
    | Some domain => setImgSrc (favicon_url domain) st
    | None => setShowPlaceholder true st
    end
  else setShowPlaceholder true st.

(** A mounted card together with the image requests its [<img>] element
    has made so far, oldest first.  The element loads its [src] when it is
    created and whenever the attribute changes; it exists only while the
    place-holder is not shown. *)
Record Mounted : Type := { img : ImgState; attempts : list jsstring }.

Definition mount (app : EduApp) : Mounted :=
  {| img := init app; attempts := [iconUrl app] |}.

(** The [error] event of the current load. *)
Definition onError (app : EduApp) (c : Mounted) : Mounted :=
  if showPlaceholder (img c) then c
  else
    let st' := handleImgError app (img c) in
    {| img := st';
       attempts :=
         attempts c ++
         (if negb (showPlaceholder st')
             && negb (jsstring_eqb (imgSrc st') (imgSrc (img c)))
          then [imgSrc st'] else []) |}.

End WithURL.

Definition getAgeStyle (age : N) : AgeStyle :=
  if N.leb 14 age then Rose_Lock else Emerald_Shield.

(** The age badge: absent, or its style and its text. *)
Definition ageBadge (app : EduApp) : option (AgeStyle * jsstring) :=
  match minAge app with
  | Some age => Some (getAgeStyle age, js "+" ++ Number_toString age)
  | None => None
  end.

End AppCard.

(* ------------------------------------------------------------------ *)
(** ** [components/AppDetailModal.tsx] *)

Module AppDetailModal.

(** [text.replace(/[class]/g, r)] for a class of single code units and a
    one-unit replacement. *)
Definition replace_all (class : N -> bool) (r : N) (text : jsstring) : jsstring :=
  List.map (fun c => if class c then r else c) text.

Definition in_range (lo hi c : N) : bool := N.leb lo c && N.leb c hi.

Definition cleanText (text : jsstring) : jsstring :=
  match text with
  | [] => []
  | _ =>
    replace_all
      (fun c => negb (in_range 0x00 0x7F c || in_range 0xA0 0xFF c
                      || N.eqb c 10 || N.eqb c 13)) 32
      (replace_all (fun c => N.eqb c 0x2022) 45
        (replace_all (fun c => N.eqb c 0x2013 || N.eqb c 0x2014) 45
          (replace_all (fun c => N.eqb c 0x201C || N.eqb c 0x201D) 34
            (replace_all (fun c => N.eqb c 0x2018 || N.eqb c 0x2019) 39 text))))
  end.

(** The code units the exporter's fonts cover, after the comment of
    [cleanText]: 00-7F and A0-FF. *)
Definition supported (c : N) : bool :=
  in_range 0x00 0x7F c || in_range 0xA0 0xFF c.

Definition init (app : EduApp) : ImgState :=
  {| imgSrc := iconUrl app; showPlaceholder := false |}.

Section WithURL.

Variable URL_hostname : jsstring -> option jsstring.

Definition handleImgError (app : EduApp) (st : ImgState) : ImgState :=
  if jsstring_eqb (imgSrc st) (iconUrl app) then
    match URL_hostname (website app) with
    | Some domain => setImgSrc (favicon_url domain) st
    | None => setShowPlaceholder true st
    end
  else setShowPlaceholder true st.

End WithURL.

(** The age cell of the details box. *)
Definition minAgeCell (app : EduApp) : jsstring :=
  if truthy (minAge app)
  then match minAge app with
       | Some n => Number_toString n ++ js "+"
       | None => []
       end
  else js "-".

(** The age line of the PDF details, [label] being [t.card.minAge]. *)
Definition minAgeLine (label : jsstring) (app : EduApp) : jsstring :=
  label ++ js ": " ++
  (if truthy (minAge app)
   then match minAge app with
        | Some n => Number_toString n ++ js "+"
        | None => []
        end
   else js "-").

(** *** The review effect: [useEffect(.., [app, language])] *)

(** One call of [analyzeAppWithGemini], with the [isMounted] variable of
    the effect run that made it. *)
Record Request : Type := {
  req_app : EduApp;
  req_language : Language;
  isMounted : bool
}.

(** The props and the state of a mounted modal, and the calls it has made,
    newest first. *)
Record Modal : Type := {
  m_app : EduApp;
  m_language : Language;
  analysis : option AIReview;
  loading : bool;
  error : option jsstring;
  requests : list Request
}.

(** The synchronous part of [generateAnalysis], up to the [await]. *)
Definition generateAnalysis (m : Modal) : Modal :=
  {| m_app := m_app m; m_language := m_language m;
     analysis := None; loading := true; error := None;
     requests :=
       {| req_app := m_app m; req_language := m_language m; isMounted := true |}
       :: requests m |}.

(** The function the effect returns: it clears the flag of its own run. *)
Definition cleanup (m : Modal) : Modal :=
  {| m_app := m_app m; m_language := m_language m;
     analysis := analysis m; loading := loading m; error := error m;
     requests :=
       match requests m with
       | r :: rs =>
           {| req_app := req_app r; req_language := req_language r;
              isMounted := false |} :: rs
       | [] => []
       end |}.

(** First render: the [useState] initial values, then the effect. *)
Definition mount (a : EduApp) (l : Language) : Modal :=
  generateAnalysis
    {| m_app := a; m_language := l; analysis := None; loading := true;
       error := None; requests := [] |}.

(** The dependency comparison on [app]: catalogue entries are constants
    told apart by their [id]. *)
Definition same_app (a b : EduApp) : bool := jsstring_eqb (id a) (id b).

(** A render with new props: when a dependency changed, the previous
    run is cleaned up and the effect runs again. *)
Definition rerender (a : EduApp) (l : Language) (m : Modal) : Modal :=
  let m' :=
    {| m_app := a; m_language := l; analysis := analysis m;
       loading := loading m; error := error m; requests := requests m |} in
  if same_app (m_app m) a && Language_eqb (m_language m) l then m'
  else generateAnalysis (cleanup m').

(** A call whose answer will be dropped. *)
Definition stale (r : Request) : Prop := isMounted r = false.

(** What [toggleLanguage] of the parent does to an open modal. *)
Definition languageToggled (m : Modal) : Modal :=
  rerender (m_app m)
           (if Language_eqb (m_language m) Lang_es then Lang_eu else Lang_es) m.

Section WithTranslations.

(** [getTranslation(language).modal.error]. *)
Variable modal_error : Language -> jsstring.

(** The promise of the [k]-th call (counted from the first) settles:
    [Some review] when it resolves, [None] when it rejects. *)
Definition settle (k : nat) (outcome : option AIReview) (m : Modal) : Modal :=
  match nth_error (rev (requests m)) k with
  | Some r =>
      if isMounted r then
        match outcome with
        | Some result =>
            {| m_app := m_app m; m_language := m_language m;
               analysis := Some result; loading := false; error := error m;
               requests := requests m |}
        | None =>
            {| m_app := m_app m; m_language := m_language m;
               analysis := analysis m; loading := false;
               error := Some (modal_error (req_language r));
               requests := requests m |}
        end
      else m
  | None => m
  end.

(** The states an open modal can be in. *)
Inductive reachable : Modal -> Prop :=
  | reach_mount a l : reachable (mount a l)
  | reach_rerender a l m : reachable m -> reachable (rerender a l m)
  | reach_settle k o m : reachable m -> reachable (settle k o m).

End WithTranslations.

End AppDetailModal.

(* ------------------------------------------------------------------ *)
(** ** The rest of [App.tsx]: options and the clear button *)

(** The strings of [t.card] the components read. *)
Record CardStrings : Type := {
  free : jsstring;
  freemium : jsstring;
  paid : jsstring
}.

Module AppView.

(** [Object.values] of the three enumerations, in declaration order. *)
Definition categoryValues : list jsstring :=
  List.map AppCategory_value
    [GAMIFICATION; CONTENT_CREATION; MANAGEMENT; ASSESSMENT; COLLABORATION; OTHER].

Definition stageValues : list jsstring :=
  List.map EducationStage_value
    [INFANTIL; PRIMARIA; SECUNDARIA; BACHILLERATO; FP; UNIVERSIDAD].

Definition roleValues : list jsstring :=
  List.map UserRole_value [TEACHER; STUDENT; BOTH].

(** The array literal of [priceOptions]. *)
Definition priceValues : list jsstring :=
  [js "Gratis"; js "Freemium"; js "Pago"].

(** The label of a price option. *)
Definition priceOptionLabel (t : CardStrings) (p : jsstring) : jsstring :=
  if jsstring_eqb p (js "Gratis") then free t
  else if jsstring_eqb p (js "Freemium") then freemium t
  else paid t.

(** [activeFilterCount > 0 || searchTerm !== '']: the clear button of the
    results header is rendered. *)
Definition showClearButton (st : App.State) : bool :=
  Nat.ltb 0 (App.activeFilterCount st)
  || negb (jsstring_eqb (App.searchTerm st) []).

End AppView.

(* ------------------------------------------------------------------ *)
(** ** The rest of [components/AppCard.tsx] *)

Inductive LucideIcon : Type :=
  | Gamepad2 | Palette | ClipboardList | CheckSquare | MessageCircle | Layers
  | User | GraduationCap | Users.

Module CardView.

Definition getRoleIcon (app : EduApp) : LucideIcon :=
  if jsstring_eqb (UserRole_value (targetAudience app)) (js "Docente") then User
  else if jsstring_eqb (UserRole_value (targetAudience app)) (js "Alumnado")
       then GraduationCap
       else Users.

Definition getPriceLabel (t : CardStrings) (app : EduApp) : jsstring :=
  if jsstring_eqb (PriceModel_value (priceModel app)) (js "Gratis") then free t
  else if jsstring_eqb (PriceModel_value (priceModel app)) (js "Pago") then paid t
  else freemium t.

(** The icon, the background class and the icon class of the place-holder. *)
Definition renderCategoryPlaceholder (app : EduApp)
  : LucideIcon * jsstring * jsstring :=
  match category app with
  | GAMIFICATION =>
      (Gamepad2, js "bg-gradient-to-br from-orange-100 to-amber-100", js "text-orange-600")
  | CONTENT_CREATION =>
      (Palette, js "bg-gradient-to-br from-pink-100 to-rose-100", js "text-pink-600")
  | MANAGEMENT =>
      (ClipboardList, js "bg-gradient-to-br from-slate-100 to-gray-200", js "text-slate-600")
  | ASSESSMENT =>
      (CheckSquare, js "bg-gradient-to-br from-emerald-100 to-teal-100", js "text-emerald-600")
  | COLLABORATION =>
      (MessageCircle, js "bg-gradient-to-br from-indigo-100 to-violet-100", js "text-indigo-600")
  | OTHER =>
      (Layers, js "bg-gradient-to-br from-cyan-100 to-sky-100", js "text-cyan-600")
  end.

(** [list[language]]. *)
Definition localized_list (l : LocalizedList) (language : Language) : list jsstring :=
  match language with
  | Lang_es => es_list l
  | Lang_eu => eu_list l
  end.

(** The feature tags: [slice(0, 3)], and whether the dots follow. *)
Definition featureTags (language : Language) (app : EduApp) : list jsstring :=
  firstn 3 (localized_list (features app) language).

Definition featureDots (language : Language) (app : EduApp) : bool :=
  Nat.ltb 3 (List.length (localized_list (features app) language)).

(** The stage tags: [slice(0, 4)], and whether the plus sign follows. *)
Definition stageTags (app : EduApp) : list EducationStage :=
  firstn 4 (stages app).

Definition stagePlus (app : EduApp) : bool :=
  Nat.ltb 4 (List.length (stages app)).

End CardView.

(* ------------------------------------------------------------------ *)
(** ** The rest of [components/AppDetailModal.tsx] *)

Module ModalView.

(** The icon and the class of the place-holder. *)
Definition renderCategoryPlaceholder (app : EduApp) : LucideIcon * jsstring :=
  match category app with
  | GAMIFICATION => (Gamepad2, js "text-orange-600 bg-orange-50")
  | CONTENT_CREATION => (Palette, js "text-pink-600 bg-pink-50")
  | MANAGEMENT => (ClipboardList, js "text-slate-600 bg-slate-50")
  | ASSESSMENT => (CheckSquare, js "text-emerald-600 bg-emerald-50")
  | COLLABORATION => (MessageCircle, js "text-indigo-600 bg-indigo-50")
  | OTHER => (Layers, js "text-cyan-600 bg-cyan-50")
  end.

(** The class [\s] of a regular expression without the [u] flag. *)
Definition is_whitespace (c : N) : bool :=
  AppDetailModal.in_range 9 13 c || N.eqb c 32 || N.eqb c 0xA0
  || N.eqb c 0x1680 || AppDetailModal.in_range 0x2000 0x200A c
  || N.eqb c 0x2028 || N.eqb c 0x2029 || N.eqb c 0x202F || N.eqb c 0x205F
  || N.eqb c 0x3000 || N.eqb c 0xFEFF.

(** [s.replace(/\s+/g, '_')]: every maximal run of white space becomes one
    underscore; [in_run] tells that the run has been replaced already. *)
Fixpoint replace_runs (in_run : bool) (s : jsstring) : jsstring :=
  match s with
  | [] => []
  | c :: s' =>
      if is_whitespace c
      then (if in_run then replace_runs true s' else 95%N :: replace_runs true s')
      else c :: replace_runs false s'
  end.

(** The argument of [doc.save]. *)
Definition reportFileName (app : EduApp) : jsstring :=
  replace_runs false (name app) ++ js "_Report.pdf".


(** The newest call answers the props the modal has now. *)
Definition newest_is_current (m : AppDetailModal.Modal) : Prop :=
  exists r rs,
    AppDetailModal.requests m = r :: rs
    /\ AppDetailModal.isMounted r = true
    /\ AppDetailModal.req_language r = AppDetailModal.m_language m
    /\ AppDetailModal.same_app (AppDetailModal.req_app r) (AppDetailModal.m_app m) = true.

End ModalView.

(* ------------------------------------------------------------------ *)
(** ** [services/geminiService.ts]: the description in the prompt *)

Module geminiService.

(** [app.description[lang] || app.description['es']]: the empty string is
    falsy. *)
Definition promptDescription (app : EduApp) (lang : Language) : jsstring :=
  match localized (description app) lang with
  | [] => es (description app)
  | d => d
  end.

End geminiService.

(* ------------------------------------------------------------------ *)
(** ** The sanitiser as the specification words it *)

(** The typographic quotes and dashes: U+2018, U+2019, U+201C, U+201D,
    U+2013 and U+2014. *)
Definition typographic_quote_or_dash (c : N) : bool :=
  N.eqb c 0x2018 || N.eqb c 0x2019 || N.eqb c 0x201C || N.eqb c 0x201D
  || N.eqb c 0x2013 || N.eqb c 0x2014.

(** What becomes of one code unit: quotes and dashes go to their ASCII
    look-alikes, the bullet U+2022 goes to a hyphen, any other unit outside
    00-7F and A0-FF goes to a space, and the rest is kept. *)
Definition sanitized_unit (c : N) : N :=
  if N.eqb c 0x2018 || N.eqb c 0x2019 then 39
  else if N.eqb c 0x201C || N.eqb c 0x201D then 34
  else if N.eqb c 0x2013 || N.eqb c 0x2014 then 45
  else if N.eqb c 0x2022 then 45
  else if AppDetailModal.supported c then c
  else 32.

(* ------------------------------------------------------------------ *)
(** ** Sample entries used in the examples *)

Module Sample.

Definition no_features : LocalizedList := {| es_list := []; eu_list := [] |}.

(** For everybody, primary and secondary, with a Basque-only word. *)
Definition quiz : EduApp :=
  {| id := js "1"; name := js "QuizLand";
     description := {| es := js "Concursos en clase"; eu := js "Galdetegiak gelan" |};
     category := GAMIFICATION; targetAudience := BOTH;
     stages := [PRIMARIA; SECUNDARIA]; priceModel := Freemium;
     website := js "https://quizland.example"; iconUrl := js "https://quizland.example/logo.png";
     features := no_features; minAge := Some 0%N |}.

(** For teachers only. *)
Definition gradebook : EduApp :=
  {| id := js "2"; name := js "GradeBook";
     description := {| es := js "Cuaderno de notas"; eu := js "Nota koadernoa" |};
     category := MANAGEMENT; targetAudience := TEACHER;
     stages := [SECUNDARIA; BACHILLERATO]; priceModel := Pago;
     website := js "not a url"; iconUrl := js "https://gradebook.example/icon.png";
     features := no_features; minAge := None |}.

(** For students only; its icon is the favicon-service address of its
    own site. *)
Definition flashcards : EduApp :=
  {| id := js "3"; name := js "Flashcards";
     description := {| es := js "Tarjetas de estudio"; eu := js "Ikasteko txartelak" |};
     category := OTHER; targetAudience := STUDENT;
     stages := [UNIVERSIDAD]; priceModel := Gratis;
     website := js "https://example.com";
     iconUrl := js "https://www.google.com/s2/favicons?domain=example.com&sz=128";
     features := no_features; minAge := Some 14%N |}.

Definition catalog : list EduApp := [quiz; gradebook; flashcards].

Definition review : AIReview :=
  {| summary := js "ok"; teacherTip := js "tip"; studentActivity := js "act";
     pros := []; cons := [];
     privacy := {| gdprCompliant := true; dataCollected := js "none";
                   ageWarning := js "none"; complianceSummary := js "ok" |} |}.

End Sample.

(* ------------------------------------------------------------------ *)
(** ** Facts about the JavaScript operations *)

Lemma jsstring_eqb_eq (a b : jsstring) : jsstring_eqb a b = true <-> a = b.
Proof.
  revert b; induction a as [|c a IH]; intros [|d b]; simpl;
    try (split; [discriminate | congruence]); [tauto|].
  rewrite andb_true_iff, N.eqb_eq, IH.
  split; [intros [-> ->]; reflexivity | intros [= -> ->]; auto].
Qed.

Lemma jsstring_eqb_refl (a : jsstring) : jsstring_eqb a a = true.
Proof. apply jsstring_eqb_eq; reflexivity. Qed.

Lemma jsstring_eqb_neq (a b : jsstring) : jsstring_eqb a b = false <-> a <> b.
Proof.
  rewrite <- jsstring_eqb_eq.
  destruct (jsstring_eqb a b); split; congruence.
Qed.

Lemma startsWith_prefix (s p : jsstring) :
  startsWith s p = true <-> exists post, s = p ++ post.
Proof.
  revert s; induction p as [|c p IH]; intros s; simpl.
  - split; [exists s; reflexivity | reflexivity].
  - destruct s as [|d s].
    + split; [discriminate | intros [post H]; discriminate H].
    + rewrite andb_true_iff, N.eqb_eq, IH. split.
      * intros [-> [post ->]]. exists post. reflexivity.
      * intros [post [= -> ->]]. split; [reflexivity | exists post; reflexivity].
Qed.

Lemma String_includes_occurs (s p : jsstring) :
  String_includes s p = true <-> exists pre post, s = pre ++ p ++ post.
Proof.
  induction s as [|d s IH]; simpl String_includes.
  - rewrite orb_false_r, startsWith_prefix. split.
    + intros [post H]. exists [], post. exact H.
    + intros [pre [post H]]. symmetry in H.
      apply app_eq_nil in H as [-> H]. exists post. symmetry. exact H.
  - rewrite orb_true_iff, startsWith_prefix, IH. split.
    + intros [[post H] | [pre [post H]]].
      * exists [], post. exact H.
      * exists (d :: pre), post. simpl. f_equal. exact H.
    + intros [[|c pre] [post H]].
      * left. exists post. exact H.
      * right. injection H as _ H. exists pre, post. exact H.
Qed.

Lemma String_includes_empty (s : jsstring) : String_includes s [] = true.
Proof. destruct s; reflexivity. Qed.

Lemma Array_includes_In (arr : list jsstring) (x : jsstring) :
  Array_includes arr x = true <-> In x arr.
Proof.
  unfold Array_includes. rewrite existsb_exists. split.
  - intros [y [Hy E]]. apply jsstring_eqb_eq in E. subst y. exact Hy.
  - intros H. exists x. split; [exact H | apply jsstring_eqb_refl].
Qed.

Lemma length_zero_nil {A} (l : list A) : Nat.eqb (List.length l) 0 = true <-> l = [].
Proof. destruct l; simpl; split; congruence. Qed.

Lemma length_zero_cons {A} (l : list A) : l <> [] -> Nat.eqb (List.length l) 0 = false.
Proof. destruct l; simpl; congruence. Qed.

(** The enumeration values are pairwise different strings. *)
Lemma UserRole_value_inj (a b : UserRole) :
  UserRole_value a = UserRole_value b -> a = b.
Proof. destruct a, b; intros H; try reflexivity; discriminate H. Qed.

Lemma EducationStage_value_inj (a b : EducationStage) :
  EducationStage_value a = EducationStage_value b -> a = b.
Proof. destruct a, b; intros H; try reflexivity; discriminate H. Qed.

Lemma AppCategory_value_inj (a b : AppCategory) :
  AppCategory_value a = AppCategory_value b -> a = b.
Proof. destruct a, b; intros H; try reflexivity; discriminate H. Qed.

Lemma PriceModel_value_inj (a b : PriceModel) :
  PriceModel_value a = PriceModel_value b -> a = b.
Proof. destruct a, b; intros H; try reflexivity; discriminate H. Qed.

Lemma is_BOTH (r : UserRole) :
  jsstring_eqb (UserRole_value r) (UserRole_value BOTH) = true <-> r = BOTH.
Proof.
  rewrite jsstring_eqb_eq. split; [apply UserRole_value_inj | intros ->; reflexivity].
Qed.

(* ------------------------------------------------------------------ *)
(** ** The four selection predicates *)

Lemma matchesCategory_iff (S : list jsstring) (e : EduApp) :
  App.matchesCategory S e = true <-> FilterSpec.category_match S e.
Proof.
  unfold App.matchesCategory, FilterSpec.category_match.
  rewrite orb_true_iff, length_zero_nil, Array_includes_In. reflexivity.
Qed.

Lemma matchesPrice_iff (S : list jsstring) (e : EduApp) :
  App.matchesPrice S e = true <-> FilterSpec.price_match S e.
Proof.
  unfold App.matchesPrice, FilterSpec.price_match.
  rewrite orb_true_iff, length_zero_nil, Array_includes_In. reflexivity.
Qed.

Lemma some_stage_iff (S : list jsstring) (l : list EducationStage) :
  Array_some (fun s => Array_includes S (EducationStage_value s)) l = true
  <-> exists s, In s l /\ In (EducationStage_value s) S.
Proof.
  unfold Array_some. rewrite existsb_exists.
  split; intros [s [Hs H]]; exists s; split; try exact Hs;
    apply Array_includes_In; exact H.
Qed.

Lemma matchesStage_iff (S : list jsstring) (e : EduApp) :
  App.matchesStage S e = true <-> FilterSpec.stage_match S e.
Proof.
  unfold App.matchesStage, FilterSpec.stage_match.
  rewrite orb_true_iff, length_zero_nil, some_stage_iff. reflexivity.
Qed.

(** The callback of [selectedRoles.some] on an entry for everybody. *)
Lemma some_role_both (S : list jsstring) (e : EduApp) :
  targetAudience e = BOTH -> S <> [] ->
  Array_some
    (fun role =>
       if jsstring_eqb (UserRole_value (targetAudience e)) (UserRole_value BOTH)
       then true
       else jsstring_eqb (UserRole_value (targetAudience e)) role) S = true.
Proof.
  intros HB HS. rewrite HB. destruct S as [|x S]; [congruence | reflexivity].
Qed.

(** The same callback on an entry for one role. *)
Lemma some_role_single (S : list jsstring) (e : EduApp) :
  targetAudience e <> BOTH ->
  Array_some
    (fun role =>
       if jsstring_eqb (UserRole_value (targetAudience e)) (UserRole_value BOTH)
       then true
       else jsstring_eqb (UserRole_value (targetAudience e)) role) S = true
  <-> In (UserRole_value (targetAudience e)) S.
Proof.
  intros HB.
  assert (E : jsstring_eqb (UserRole_value (targetAudience e))
                           (UserRole_value BOTH) = false).
  { apply not_true_is_false. rewrite is_BOTH. exact HB. }
  rewrite E. apply (Array_includes_In S (UserRole_value (targetAudience e))).
Qed.

Lemma matchesRole_iff (S : list jsstring) (e : EduApp) :
  App.matchesRole S e = true <-> FilterSpec.role_match S e.
Proof.
  unfold App.matchesRole, FilterSpec.role_match.
  rewrite orb_true_iff, length_zero_nil.
  assert (D : targetAudience e = BOTH \/ targetAudience e <> BOTH)
    by (destruct (targetAudience e); (left; reflexivity) || (right; discriminate)).
  destruct D as [HB|HB].
  - split; [intros _; right; left; exact HB | intros _].
    destruct S as [|x S']; [left; reflexivity | right].
    apply some_role_both; [exact HB | discriminate].
  - rewrite (@some_role_single S e HB). tauto.
Qed.

(** C2. Role predicate: with a non-empty selection, an entry for both
    roles passes whatever the selection holds, and an entry for a single
    role [r] passes exactly when [r] is selected. *)
Theorem role_predicate (S : list jsstring) (e : EduApp) (HS : S <> []) :
  (targetAudience e = BOTH -> App.matchesRole S e = true)
  /\ (forall r, r <> BOTH -> targetAudience e = r ->
        (App.matchesRole S e = true <-> In (UserRole_value r) S)).
Proof.
  unfold App.matchesRole. rewrite (length_zero_cons S HS). simpl orb. split.
  - intros HB. apply some_role_both; assumption.
  - intros r Hr <-. apply some_role_single. exact Hr.
Qed.

Lemma role_predicate_witness :
  [js "Alumnado"] <> []
  /\ (targetAudience Sample.gradebook = BOTH ->
      App.matchesRole [js "Alumnado"] Sample.gradebook = true)
  /\ (forall r, r <> BOTH -> targetAudience Sample.gradebook = r ->
        (App.matchesRole [js "Alumnado"] Sample.gradebook = true
         <-> In (UserRole_value r) [js "Alumnado"])).
Proof.
  split; [discriminate|].
  apply (@role_predicate [js "Alumnado"] Sample.gradebook). discriminate.
Defined.

(** Filtering for students keeps the entry for both and the student
    entry, and drops the teacher-only one. *)
Example role_filter_student :
  List.map (App.matchesRole [UserRole_value STUDENT]) Sample.catalog
  = [true; false; true].
Proof. reflexivity. Qed.

(** C3. Stage predicate: with a non-empty selection, an entry passes
    exactly when one of its stages is selected. *)
Theorem stage_predicate (S : list jsstring) (e : EduApp) (HS : S <> []) :
  App.matchesStage S e = true
  <-> exists s, In s (stages e) /\ In (EducationStage_value s) S.
Proof.
  unfold App.matchesStage. rewrite (length_zero_cons S HS). simpl orb.
  apply some_stage_iff.
Qed.

Lemma stage_predicate_witness :
  [js "Secundaria"; js "Universidad"] <> []
  /\ (App.matchesStage [js "Secundaria"; js "Universidad"] Sample.quiz = true
      <-> exists s, In s (stages Sample.quiz)
                    /\ In (EducationStage_value s) [js "Secundaria"; js "Universidad"]).
Proof.
  split; [discriminate|].
  apply (@stage_predicate [js "Secundaria"; js "Universidad"] Sample.quiz).
  discriminate.
Defined.

(** An entry tagged primary and secondary: one shared tag is enough, and
    no shared tag fails. *)
Example stage_shared_tag :
  stages Sample.quiz = [PRIMARIA; SECUNDARIA]
  /\ App.matchesStage [EducationStage_value SECUNDARIA;
                       EducationStage_value UNIVERSIDAD] Sample.quiz = true
  /\ App.matchesStage [EducationStage_value INFANTIL;
                       EducationStage_value BACHILLERATO] Sample.quiz = false.
Proof. repeat split. Qed.

(* ------------------------------------------------------------------ *)
(** ** The text predicate and the whole filter *)

Section FilterFacts.

Variable toLowerCase : jsstring -> jsstring.
Hypothesis toLowerCase_empty : toLowerCase [] = [].

Lemma includes_ci (s q : jsstring) :
  String_includes (toLowerCase s) (toLowerCase q) = true
  <-> FilterSpec.ci_substring toLowerCase q s.
Proof. apply String_includes_occurs. Qed.

Lemma ci_substring_empty (s : jsstring) : FilterSpec.ci_substring toLowerCase [] s.
Proof.
  exists [], (toLowerCase s). rewrite toLowerCase_empty. reflexivity.
Qed.

Lemma matchesSearch_iff (q : jsstring) (e : EduApp) :
  App.matchesSearch toLowerCase q e = true <-> FilterSpec.text_match toLowerCase q e.
Proof.
  unfold App.matchesSearch, FilterSpec.text_match.
  rewrite !orb_true_iff, !includes_ci. split.
  - tauto.
  - intros [-> | H]; [|tauto]. left; left. apply ci_substring_empty.
Qed.

Lemma matchesSearch_empty (e : EduApp) : App.matchesSearch toLowerCase [] e = true.
Proof. apply matchesSearch_iff. left. reflexivity. Qed.

Lemma passes_iff (q : jsstring) (Sc Ss Sr Sp : list jsstring) (e : EduApp) :
  App.passes toLowerCase q Sc Ss Sr Sp e = true
  <-> FilterSpec.all_match toLowerCase q Sc Ss Sr Sp e.
Proof.
  unfold App.passes, FilterSpec.all_match.
  rewrite !andb_true_iff, matchesSearch_iff, matchesCategory_iff,
    matchesStage_iff, matchesRole_iff, matchesPrice_iff.
  tauto.
Qed.

Lemma passes_no_constraint (e : EduApp) :
  App.passes toLowerCase [] [] [] [] [] e = true.
Proof.
  unfold App.passes. rewrite matchesSearch_empty. reflexivity.
Qed.

(** The language is not an input of the filter. *)
Lemma filteredApps_setLanguage (C : list EduApp) (l : Language) (st : App.State) :
  App.filteredApps toLowerCase C (App.setLanguage l st)
  = App.filteredApps toLowerCase C st.
Proof. reflexivity. Qed.

Lemma filteredApps_toggleLanguage (C : list EduApp) (st : App.State) :
  App.filteredApps toLowerCase C (App.toggleLanguage st)
  = App.filteredApps toLowerCase C st.
Proof. apply filteredApps_setLanguage. Qed.

(** [Array_filter] computes the restriction. *)
Lemma filter_restricts (P : EduApp -> Prop) (p : EduApp -> bool)
      (Hp : forall e, p e = true <-> P e) (C : list EduApp) :
  FilterSpec.restricted_to P C (Array_filter p C).
Proof.
  induction C as [|e C IH]; simpl.
  - constructor.
  - destruct (p e) eqn:E.
    + apply FilterSpec.restricted_keep; [apply Hp; exact E | exact IH].
    + apply FilterSpec.restricted_drop; [|exact IH].
      intros HP. apply Hp in HP. congruence.
Qed.

(** The restriction is a function of the catalogue. *)
Lemma restricted_to_unique (P : EduApp -> Prop) (C R1 R2 : list EduApp) :
  FilterSpec.restricted_to P C R1 -> FilterSpec.restricted_to P C R2 -> R1 = R2.
Proof.
  intros H1. revert R2.
  induction H1 as [| e C R HP _ IH | e C R HP _ IH]; intros R2 H2;
    inversion H2; subst; try contradiction; auto.
  f_equal. apply IH. assumption.
Qed.

(** C1. The filter returns the catalogue restricted to the entries that
    satisfy the five predicates, in the catalogue's order, and nothing else
    is such a restriction: the result is determined by the six inputs. *)
Theorem filter_correct (C : list EduApp) (q : jsstring)
        (S_cat S_stage S_role S_price : list jsstring) :
  FilterSpec.restricted_to
    (FilterSpec.all_match toLowerCase q S_cat S_stage S_role S_price) C
    (App.filter_catalog toLowerCase C q S_cat S_stage S_role S_price)
  /\ (forall e,
        In e (App.filter_catalog toLowerCase C q S_cat S_stage S_role S_price)
        <-> In e C /\ FilterSpec.all_match toLowerCase q S_cat S_stage S_role S_price e)
  /\ (forall R,
        FilterSpec.restricted_to
          (FilterSpec.all_match toLowerCase q S_cat S_stage S_role S_price) C R ->
        R = App.filter_catalog toLowerCase C q S_cat S_stage S_role S_price).
Proof.
  assert (HR := filter_restricts _ _ (passes_iff q S_cat S_stage S_role S_price) C).
  split; [exact HR | split].
  - intros e. unfold App.filter_catalog, Array_filter.
    rewrite filter_In, passes_iff. reflexivity.
  - intros R H. exact (restricted_to_unique _ _ _ _ H HR).
Qed.

(** C4. Text predicate: an entry passes exactly when the query is empty
    or occurs, case-insensitively, in the name, in the Spanish description
    or in the Basque description, whatever the display language is; the
    filtered list does not depend on the display language either. *)
Theorem text_predicate (st : App.State) (l : Language) (e : EduApp) (C : list EduApp) :
  (App.matchesSearch toLowerCase (App.searchTerm (App.setLanguage l st)) e = true
   <-> App.searchTerm st = []
       \/ FilterSpec.ci_substring toLowerCase (App.searchTerm st) (name e)
       \/ FilterSpec.ci_substring toLowerCase (App.searchTerm st) (es (description e))
       \/ FilterSpec.ci_substring toLowerCase (App.searchTerm st) (eu (description e)))
  /\ App.filteredApps toLowerCase C (App.setLanguage l st)
     = App.filteredApps toLowerCase C st.
Proof.
  split; [|reflexivity].
  change (App.searchTerm (App.setLanguage l st)) with (App.searchTerm st).
  apply matchesSearch_iff.
Qed.

Lemma filter_keeps_all (p : EduApp -> bool) (C : list EduApp) :
  (forall e, p e = true) -> Array_filter p C = C.
Proof.
  intros H. induction C as [|e C IH]; simpl; [reflexivity|].
  rewrite (H e). f_equal. exact IH.
Qed.

(** C5. With the empty query and four empty selections the filter
    returns the catalogue unchanged. *)
Theorem filter_identity (C : list EduApp) :
  App.filter_catalog toLowerCase C [] [] [] [] [] = C.
Proof.
  unfold App.filter_catalog.
  apply filter_keeps_all. exact passes_no_constraint.
Qed.

(** Every setter of [clearFilters] took effect, and nothing else changed. *)
Lemma clearFilters_fields (st : App.State) :
  App.clearFilters st
  = {| App.language := App.language st; App.searchTerm := [];
       App.selectedCategories := []; App.selectedStages := [];
       App.selectedRoles := []; App.selectedPrices := [];
       App.selectedApp := App.selectedApp st |}.
Proof. reflexivity. Qed.

(** [toggleOption] never stores a value twice, so the length of a
    selection is the number of values selected. *)
Lemma toggleOption_NoDup (selected : list jsstring) (value : jsstring) :
  NoDup selected -> NoDup (App.toggleOption selected value).
Proof.
  intros H. unfold App.toggleOption.
  destruct (Array_includes selected value) eqn:E.
  - apply NoDup_filter. exact H.
  - apply NoDup_app; [exact H | repeat constructor; intros [] |].
    intros x Hx [<- | []].
    apply Array_includes_In in Hx. congruence.
Qed.

(** C6. Reset: after [clearFilters] the query and the four selections are
    empty, the filter yields the whole catalogue in its order, and the
    active-filter count, the sum of the four selection sizes, is zero. *)
Theorem clearFilters_resets (C : list EduApp) (st : App.State) :
  App.searchTerm (App.clearFilters st) = []
  /\ App.selectedCategories (App.clearFilters st) = []
  /\ App.selectedStages (App.clearFilters st) = []
  /\ App.selectedRoles (App.clearFilters st) = []
  /\ App.selectedPrices (App.clearFilters st) = []
  /\ App.filteredApps toLowerCase C (App.clearFilters st) = C
  /\ App.activeFilterCount (App.clearFilters st) = 0
  /\ App.activeFilterCount st
     = List.length (App.selectedCategories st) + List.length (App.selectedStages st)
       + List.length (App.selectedRoles st) + List.length (App.selectedPrices st).
Proof.
  rewrite clearFilters_fields. repeat split.
  unfold App.filteredApps, App.filter_catalog; simpl.
  apply filter_keeps_all. exact passes_no_constraint.
Qed.

End FilterFacts.

Lemma latin1_toLowerCase_empty : latin1_toLowerCase [] = [].
Proof. reflexivity. Qed.

Lemma filter_correct_witness :
  latin1_toLowerCase [] = []
  /\ FilterSpec.restricted_to
       (FilterSpec.all_match latin1_toLowerCase (js "GALDE") [] [] [js "Alumnado"] [])
       Sample.catalog
       (App.filter_catalog latin1_toLowerCase Sample.catalog
                           (js "GALDE") [] [] [js "Alumnado"] []).
Proof.
  split; [reflexivity|].
  apply (@filter_correct latin1_toLowerCase latin1_toLowerCase_empty).
Defined.

Lemma text_predicate_witness :
  latin1_toLowerCase [] = []
  /\ (App.matchesSearch latin1_toLowerCase
        (App.searchTerm (App.setLanguage Lang_es (App.setSearchTerm (js "GALDE") App.initial)))
        Sample.quiz = true
      <-> js "GALDE" = []
          \/ FilterSpec.ci_substring latin1_toLowerCase (js "GALDE") (name Sample.quiz)
          \/ FilterSpec.ci_substring latin1_toLowerCase (js "GALDE") (es (description Sample.quiz))
          \/ FilterSpec.ci_substring latin1_toLowerCase (js "GALDE") (eu (description Sample.quiz))).
Proof.
  split; [reflexivity|].
  apply (@text_predicate latin1_toLowerCase latin1_toLowerCase_empty
           (App.setSearchTerm (js "GALDE") App.initial) Lang_es Sample.quiz
           Sample.catalog).
Defined.

(** A query that occurs only in the Basque description surfaces the entry
    while Spanish is the display language. *)
Example basque_only_match :
  App.language (App.setSearchTerm (js "GALDE") App.initial) = Lang_es
  /\ String_includes (latin1_toLowerCase (name Sample.quiz))
                     (latin1_toLowerCase (js "GALDE")) = false
  /\ String_includes (latin1_toLowerCase (es (description Sample.quiz)))
                     (latin1_toLowerCase (js "GALDE")) = false
  /\ App.filteredApps latin1_toLowerCase Sample.catalog
       (App.setSearchTerm (js "GALDE") App.initial) = [Sample.quiz].
Proof. repeat split. Qed.

Lemma filter_identity_witness :
  latin1_toLowerCase [] = []
  /\ App.filter_catalog latin1_toLowerCase Sample.catalog [] [] [] [] []
     = Sample.catalog.
Proof.
  split; [reflexivity|].
  apply (@filter_identity latin1_toLowerCase latin1_toLowerCase_empty).
Defined.

Lemma clearFilters_resets_witness :
  latin1_toLowerCase [] = []
  /\ App.filteredApps latin1_toLowerCase Sample.catalog
       (App.clearFilters
          (App.setSelectedRoles [js "Docente"]
             (App.setSearchTerm (js "quiz") App.initial))) = Sample.catalog
  /\ App.activeFilterCount
       (App.clearFilters
          (App.setSelectedRoles [js "Docente"]
             (App.setSearchTerm (js "quiz") App.initial))) = 0.
Proof.
  split; [reflexivity|].
  pose proof (@clearFilters_resets latin1_toLowerCase latin1_toLowerCase_empty
                Sample.catalog
                (App.setSelectedRoles [js "Docente"]
                   (App.setSearchTerm (js "quiz") App.initial))) as H.
  split; apply H.
Defined.

(* ------------------------------------------------------------------ *)
(** ** The image source chain *)

(** The modal repeats the handler of the card. *)
Lemma modal_handleImgError_same (URL_hostname : jsstring -> option jsstring)
      (app : EduApp) (st : ImgState) :
  AppDetailModal.handleImgError URL_hostname app st
  = AppCard.handleImgError URL_hostname app st.
Proof. reflexivity. Qed.

Lemma iter_fixed_point {A} (f : A -> A) (x : A) (n : nat) :
  f x = x -> Nat.iter n f x = x.
Proof.
  intros H. induction n as [|k IH]; simpl; [reflexivity | rewrite IH; exact H].
Qed.

Section ImageChain.

Variable URL_hostname : jsstring -> option jsstring.
Variable app : EduApp.

(** First failure, site address parsed: the favicon address is next. *)
Lemma first_failure_parsed (host : jsstring) :
  URL_hostname (website app) = Some host ->
  AppCard.handleImgError URL_hostname app (AppCard.init app)
  = {| imgSrc := favicon_url host; showPlaceholder := false |}.
Proof.
  intros H. unfold AppCard.handleImgError, AppCard.init; simpl.
  rewrite jsstring_eqb_refl, H. reflexivity.
Qed.

(** First failure, site address not parsed: straight to the place-holder. *)
Lemma first_failure_unparsed :
  URL_hostname (website app) = None ->
  AppCard.render app (AppCard.handleImgError URL_hostname app (AppCard.init app)) = CategoryPlaceholder (category app).
Proof.
  intros H. unfold AppCard.handleImgError, AppCard.init; simpl.
  rewrite jsstring_eqb_refl, H. reflexivity.
Qed.

(** A failure of any source other than [iconUrl] shows the place-holder. *)
Lemma later_failure (st : ImgState) :
  imgSrc st <> iconUrl app ->
  AppCard.render app (AppCard.handleImgError URL_hostname app st) = CategoryPlaceholder (category app).
Proof.
  intros H. apply jsstring_eqb_neq in H.
  unfold AppCard.handleImgError. rewrite H. reflexivity.
Qed.

(** The handler never hides the place-holder again. *)
Lemma placeholder_stays (st : ImgState) :
  showPlaceholder st = true -> showPlaceholder (AppCard.handleImgError URL_hostname app st) = true.
Proof.
  intros H. unfold AppCard.handleImgError.
  destruct (jsstring_eqb (imgSrc st) (iconUrl app));
    [destruct (URL_hostname (website app))|]; simpl; auto.
Qed.

(** With the place-holder shown there is no [<img>], hence no event and no
    request. *)
Lemma onError_placeholder (c : AppCard.Mounted) :
  showPlaceholder (AppCard.img c) = true -> AppCard.onError URL_hostname app c = c.
Proof. intros H. unfold AppCard.onError. rewrite H. reflexivity. Qed.

Lemma iter_onError_placeholder (n : nat) (c : AppCard.Mounted) :
  showPlaceholder (AppCard.img c) = true -> Nat.iter n (AppCard.onError URL_hostname app) c = c.
Proof.
  intros H. apply iter_fixed_point. apply onError_placeholder. exact H.
Qed.

(** When the favicon address differs from [iconUrl], the chain is
    [iconUrl], the favicon address, the place-holder, and it stops there. *)
Lemma chain_when_sources_differ (host : jsstring) (n : nat) :
  URL_hostname (website app) = Some host ->
  favicon_url host <> iconUrl app ->
  AppCard.attempts (AppCard.onError URL_hostname app (AppCard.mount app)) = [iconUrl app; favicon_url host]
  /\ Nat.iter (2 + n) (AppCard.onError URL_hostname app) (AppCard.mount app)
     = {| AppCard.img := {| imgSrc := favicon_url host; showPlaceholder := true |};
          AppCard.attempts := [iconUrl app; favicon_url host] |}.
Proof.
  intros Hp Hd.
  assert (E1 : AppCard.onError URL_hostname app (AppCard.mount app)
               = {| AppCard.img := {| imgSrc := favicon_url host; showPlaceholder := false |};
                    AppCard.attempts := [iconUrl app; favicon_url host] |}).
  { unfold AppCard.onError, AppCard.mount.
    cbn [AppCard.img AppCard.attempts].
    rewrite (first_failure_parsed host Hp).
    cbn [AppCard.init imgSrc showPlaceholder negb andb].
    apply jsstring_eqb_neq in Hd. rewrite Hd. reflexivity. }
  split; [rewrite E1; reflexivity|].
  change (2 + n) with (S (S n)).
  rewrite Nat.iter_succ_r, Nat.iter_succ_r, E1.
  assert (E2 : AppCard.onError URL_hostname app {| AppCard.img := {| imgSrc := favicon_url host; showPlaceholder := false |};
                          AppCard.attempts := [iconUrl app; favicon_url host] |}
               = {| AppCard.img := {| imgSrc := favicon_url host; showPlaceholder := true |};
                    AppCard.attempts := [iconUrl app; favicon_url host] |}).
  { unfold AppCard.onError, AppCard.handleImgError.
    cbn [AppCard.img showPlaceholder imgSrc AppCard.attempts].
    apply jsstring_eqb_neq in Hd. rewrite Hd. reflexivity. }
  rewrite E2. apply iter_onError_placeholder. reflexivity.
Qed.

(** When the site address is not parsed, one failure ends the chain. *)
Lemma chain_when_unparsed (n : nat) :
  URL_hostname (website app) = None ->
  Nat.iter (1 + n) (AppCard.onError URL_hostname app) (AppCard.mount app)
  = {| AppCard.img := {| imgSrc := iconUrl app; showPlaceholder := true |};
       AppCard.attempts := [iconUrl app] |}.
Proof.
  intros Hp. change (1 + n) with (S n). rewrite Nat.iter_succ_r.
  assert (E1 : AppCard.onError URL_hostname app (AppCard.mount app)
               = {| AppCard.img := {| imgSrc := iconUrl app; showPlaceholder := true |};
                    AppCard.attempts := [iconUrl app] |}).
  { unfold AppCard.onError, AppCard.mount, AppCard.handleImgError.
    cbn [AppCard.img showPlaceholder AppCard.init AppCard.attempts imgSrc].
    rewrite jsstring_eqb_refl, Hp. reflexivity. }
  rewrite E1. apply iter_onError_placeholder. reflexivity.
Qed.

(** C8. An entry whose [iconUrl] is already the favicon address of its own
    site: the handler finds [imgSrc === app.iconUrl] at every failure and
    stores the same address again, so the state never moves, the favicon
    service is never tried as a second source and the place-holder is
    never shown, however many failures are reported. *)
Theorem icon_equal_to_favicon_is_stuck (host : jsstring) (n : nat)
        (Hparse : URL_hostname (website app) = Some host)
        (Hicon : iconUrl app = favicon_url host) :
  Nat.iter n (AppCard.handleImgError URL_hostname app) (AppCard.init app) = AppCard.init app
  /\ Nat.iter n (AppCard.onError URL_hostname app) (AppCard.mount app) = AppCard.mount app
  /\ AppCard.render app (Nat.iter n (AppCard.handleImgError URL_hostname app) (AppCard.init app)) = Img (iconUrl app)
  /\ AppCard.attempts (Nat.iter n (AppCard.onError URL_hostname app) (AppCard.mount app)) = [iconUrl app].
Proof.
  assert (E : AppCard.handleImgError URL_hostname app (AppCard.init app) = AppCard.init app).
  { rewrite (first_failure_parsed host Hparse), <- Hicon. reflexivity. }
  assert (I1 : Nat.iter n (AppCard.handleImgError URL_hostname app) (AppCard.init app) = AppCard.init app).
  { apply iter_fixed_point. exact E. }
  assert (F : AppCard.onError URL_hostname app (AppCard.mount app) = AppCard.mount app).
  { unfold AppCard.onError, AppCard.mount.
    cbn [AppCard.img AppCard.attempts]. rewrite E.
    cbn [AppCard.init showPlaceholder imgSrc negb andb].
    rewrite jsstring_eqb_refl, app_nil_r. reflexivity. }
  assert (I2 : Nat.iter n (AppCard.onError URL_hostname app) (AppCard.mount app) = AppCard.mount app).
  { apply iter_fixed_point. exact F. }
  rewrite I1, I2. repeat split.
Qed.

End ImageChain.

Lemma icon_equal_to_favicon_is_stuck_witness :
  simple_hostname (website Sample.flashcards) = Some (js "example.com")
  /\ iconUrl Sample.flashcards = favicon_url (js "example.com")
  /\ AppCard.render Sample.flashcards
       (Nat.iter 2 (AppCard.handleImgError simple_hostname Sample.flashcards)
                 (AppCard.init Sample.flashcards))
     = Img (iconUrl Sample.flashcards)
  /\ AppCard.attempts
       (Nat.iter 2 (AppCard.onError simple_hostname Sample.flashcards)
                 (AppCard.mount Sample.flashcards))
     = [iconUrl Sample.flashcards].
Proof.
  split; [reflexivity | split; [reflexivity|]].
  pose proof (@icon_equal_to_favicon_is_stuck simple_hostname Sample.flashcards
                (js "example.com") 2 eq_refl eq_refl) as H.
  split; apply H.
Defined.

(** The ordinary chain on the sample entries: two sources and the
    place-holder for a parsed site, one source for an unparsed one. *)
Example chain_quiz :
  Nat.iter 5 (AppCard.onError simple_hostname Sample.quiz) (AppCard.mount Sample.quiz)
  = {| AppCard.img := {| imgSrc := favicon_url (js "quizland.example");
                         showPlaceholder := true |};
       AppCard.attempts := [iconUrl Sample.quiz; favicon_url (js "quizland.example")] |}.
Proof. reflexivity. Qed.

Example chain_gradebook :
  Nat.iter 5 (AppCard.onError simple_hostname Sample.gradebook) (AppCard.mount Sample.gradebook)
  = {| AppCard.img := {| imgSrc := iconUrl Sample.gradebook; showPlaceholder := true |};
       AppCard.attempts := [iconUrl Sample.gradebook] |}.
Proof. reflexivity. Qed.

(* ------------------------------------------------------------------ *)
(** ** [cleanText] *)

Lemma in_range_iff (lo hi c : N) :
  AppDetailModal.in_range lo hi c = true <-> (lo <= c <= hi)%N.
Proof.
  unfold AppDetailModal.in_range. rewrite andb_true_iff, !N.leb_le. reflexivity.
Qed.

(** The five passes of [cleanText] on one code unit. *)
Lemma five_passes_unit (c : N) :
  (let c1 := if N.eqb c 0x2018 || N.eqb c 0x2019 then 39%N else c in
   let c2 := if N.eqb c1 0x201C || N.eqb c1 0x201D then 34%N else c1 in
   let c3 := if N.eqb c2 0x2013 || N.eqb c2 0x2014 then 45%N else c2 in
   let c4 := if N.eqb c3 0x2022 then 45%N else c3 in
   if negb (AppDetailModal.in_range 0x00 0x7F c4 || AppDetailModal.in_range 0xA0 0xFF c4
            || N.eqb c4 10 || N.eqb c4 13)
   then 32%N else c4)
  = sanitized_unit c.
Proof.
  unfold sanitized_unit, AppDetailModal.supported.
  cbv zeta.
  repeat match goal with
         | |- context [N.eqb c ?k] =>
             destruct (N.eqb_spec c k) as [->|?]; [reflexivity | cbn [orb]]
         end.
  destruct (AppDetailModal.in_range 0 127 c), (AppDetailModal.in_range 160 255 c);
    reflexivity.
Qed.

Lemma cleanText_map (s : jsstring) :
  AppDetailModal.cleanText s = List.map sanitized_unit s.
Proof.
  destruct s as [|c0 s0]; [reflexivity|].
  unfold AppDetailModal.cleanText, AppDetailModal.replace_all.
  rewrite !map_map. apply map_ext. intros c. apply five_passes_unit.
Qed.

(** C9. [cleanText] rewrites code unit by code unit and keeps the length:
    typographic quotes and dashes become their ASCII look-alikes, the
    bullet U+2022 becomes a hyphen, every other unit outside 00-7F and
    A0-FF becomes one space, and supported units are kept. *)
Theorem cleanText_sanitizes (s : jsstring) :
  AppDetailModal.cleanText s = List.map sanitized_unit s
  /\ List.length (AppDetailModal.cleanText s) = List.length s
  /\ sanitized_unit 0x2018 = 39%N /\ sanitized_unit 0x2019 = 39%N
  /\ sanitized_unit 0x201C = 34%N /\ sanitized_unit 0x201D = 34%N
  /\ sanitized_unit 0x2013 = 45%N /\ sanitized_unit 0x2014 = 45%N
  /\ sanitized_unit 0x2022 = 45%N
  /\ Forall (fun c => AppDetailModal.supported c = true) (AppDetailModal.cleanText s).
Proof.
  rewrite cleanText_map, length_map. repeat split.
  apply Forall_forall. intros c Hc. apply in_map_iff in Hc as [d [<- _]].
  unfold sanitized_unit.
  repeat match goal with
         | |- context [if ?b then _ else _] => destruct b eqn:?; try reflexivity
         end.
  assumption.
Qed.

(** As the claim has it, every unsupported code unit other than a quote or
    a dash would become a space; the bullet does not. *)
Lemma cleanText_bullet_counterexample :
  ~ (forall (s : jsstring) (i : nat) (c : N),
       nth_error s i = Some c ->
       AppDetailModal.supported c = false ->
       typographic_quote_or_dash c = false ->
       nth_error (AppDetailModal.cleanText s) i = Some 32%N).
Proof.
  intros H.
  specialize (H [0x2022%N] 0 0x2022%N eq_refl eq_refl eq_refl).
  discriminate H.
Qed.

Example cleanText_sample :
  AppDetailModal.cleanText
    [0x201C; 72; 105; 0x201D; 0x2014; 0x2022; 0x20AC; 233; 0xD83D; 0xDE00; 10]%N
  = [34; 72; 105; 34; 45; 45; 32; 233; 32; 32; 10]%N.
Proof. reflexivity. Qed.

(* ------------------------------------------------------------------ *)
(** ** The minimum age on the three surfaces *)

Lemma minAge_absent (label : jsstring) (app : EduApp) :
  minAge app = None ->
  AppDetailModal.minAgeCell app = js "-"
  /\ AppDetailModal.minAgeLine label app = label ++ js ": -"
  /\ AppCard.ageBadge app = None.
Proof.
  intros H. unfold AppDetailModal.minAgeCell, AppDetailModal.minAgeLine, AppCard.ageBadge.
  rewrite H. repeat split.
Qed.

(** C10. For an entry whose [minAge] is 0, the detail view and the PDF line
    show a hyphen, exactly as for an entry without [minAge], while the card
    shows a badge that reads [+0]. *)
Theorem minAge_zero_surfaces (label : jsstring) (app : EduApp)
        (H0 : minAge app = Some 0%N) :
  AppDetailModal.minAgeCell app = js "-"
  /\ AppDetailModal.minAgeLine label app = label ++ js ": -"
  /\ AppDetailModal.cleanText (AppDetailModal.minAgeLine label app)
     = AppDetailModal.cleanText label ++ js ": -"
  /\ (forall other, minAge other = None ->
        AppDetailModal.minAgeCell other = AppDetailModal.minAgeCell app
        /\ AppDetailModal.minAgeLine label other = AppDetailModal.minAgeLine label app
        /\ AppCard.ageBadge other = None)
  /\ AppCard.ageBadge app = Some (Emerald_Shield, js "+0").
Proof.
  assert (Hc : AppDetailModal.minAgeCell app = js "-")
    by (unfold AppDetailModal.minAgeCell; rewrite H0; reflexivity).
  assert (Hl : AppDetailModal.minAgeLine label app = label ++ js ": -")
    by (unfold AppDetailModal.minAgeLine; rewrite H0; reflexivity).
  split; [exact Hc | split; [exact Hl | split; [|split]]].
  - rewrite Hl, !cleanText_map, map_app. reflexivity.
  - intros other Hn. rewrite Hc, Hl. apply minAge_absent. exact Hn.
  - unfold AppCard.ageBadge. rewrite H0. reflexivity.
Qed.

Lemma minAge_zero_surfaces_witness :
  minAge Sample.quiz = Some 0%N
  /\ AppDetailModal.minAgeCell Sample.quiz = js "-"
  /\ AppDetailModal.minAgeLine (js "Edad") Sample.quiz = js "Edad" ++ js ": -"
  /\ AppCard.ageBadge Sample.quiz = Some (Emerald_Shield, js "+0").
Proof.
  split; [reflexivity|].
  pose proof (@minAge_zero_surfaces (js "Edad") Sample.quiz eq_refl) as H.
  repeat split; apply H.
Defined.

(** A positive age is shown on all three surfaces. *)
Example minAge_fourteen :
  AppDetailModal.minAgeCell Sample.flashcards = js "14+"
  /\ AppDetailModal.minAgeLine (js "Edad") Sample.flashcards = js "Edad: 14+"
  /\ AppCard.ageBadge Sample.flashcards = Some (Rose_Lock, js "+14").
Proof. repeat split. Qed.

(* ------------------------------------------------------------------ *)
(** ** The review effect and the language toggle *)

Module ReviewFacts.

Import AppDetailModal.

Lemma same_app_refl (a : EduApp) : same_app a a = true.
Proof. apply jsstring_eqb_refl. Qed.



(** A render with a changed dependency cleans up and calls again. *)
Lemma rerender_changed (a : EduApp) (l : Language) (m : Modal) :
  same_app (m_app m) a && Language_eqb (m_language m) l = false ->
  requests (rerender a l m)
  = {| req_app := a; req_language := l; isMounted := true |}
    :: requests (cleanup m).
Proof. intros H. unfold rerender. rewrite H. reflexivity. Qed.


Lemma cleanup_length (m : Modal) :
  List.length (requests (cleanup m)) = List.length (requests m).
Proof. unfold cleanup; simpl. destruct (requests m); reflexivity. Qed.

Lemma cleanup_stale (m : Modal) :
  Forall stale (tl (requests m)) -> Forall stale (requests (cleanup m)).
Proof.
  unfold cleanup; simpl. destruct (requests m) as [|r rs]; simpl; intros H.
  - constructor.
  - constructor; [reflexivity | exact H].
Qed.

Section WithTranslations.

Variable modal_error : Language -> jsstring.

Lemma settle_requests (k : nat) (o : option AIReview) (m : Modal) :
  requests (settle modal_error k o m) = requests m.
Proof.
  unfold settle. destruct (nth_error (rev (requests m)) k) as [r|]; [|reflexivity].
  destruct (isMounted r); [destruct o|]; reflexivity.
Qed.

(** Only the newest call can still have its flag set. *)
Lemma older_calls_stale (m : Modal) :
  reachable modal_error m -> Forall stale (tl (requests m)).
Proof.
  induction 1 as [a l | a l m Hm IH | k o m Hm IH].
  - constructor.
  - unfold rerender.
    destruct (same_app (m_app m) a && Language_eqb (m_language m) l);
      [exact IH|].
    apply (cleanup_stale
             {| m_app := a; m_language := l; analysis := analysis m;
                loading := loading m; error := error m; requests := requests m |}).
    exact IH.
  - rewrite settle_requests. exact IH.
Qed.

(** The answer to a call whose flag is cleared changes nothing. *)
Lemma settle_stale (k : nat) (o : option AIReview) (m : Modal) :
  (forall r, nth_error (rev (requests m)) k = Some r -> stale r) ->
  settle modal_error k o m = m.
Proof.
  intros H. unfold settle.
  destruct (nth_error (rev (requests m)) k) as [r|]; [|reflexivity].
  rewrite (H r eq_refl). reflexivity.
Qed.


End WithTranslations.

End ReviewFacts.



(** The late answer to the abandoned Spanish call is dropped; the answer
    to the Basque call is shown. *)
Example late_answer_dropped :
  let m := AppDetailModal.languageToggled (AppDetailModal.mount Sample.quiz Lang_es) in
  AppDetailModal.settle (fun _ => js "error") 0 (Some Sample.review) m = m
  /\ AppDetailModal.analysis
       (AppDetailModal.settle (fun _ => js "error") 1 (Some Sample.review) m)
     = Some Sample.review
  /\ AppDetailModal.loading
       (AppDetailModal.settle (fun _ => js "error") 1 (Some Sample.review) m)
     = false.
Proof. repeat split. Qed.

(* ------------------------------------------------------------------ *)
(** ** The multi-select drop-down *)

Lemma filter_neq_In (sel : list jsstring) (value v : jsstring) :
  In v (Array_filter (fun x => negb (jsstring_eqb x value)) sel)
  <-> In v sel /\ v <> value.
Proof.
  unfold Array_filter. rewrite filter_In, negb_true_iff, jsstring_eqb_neq.
  reflexivity.
Qed.

(** X1. [toggleOption] flips the membership of the toggled value and of no
    other value. *)
Theorem toggleOption_flips (sel : list jsstring) (value : jsstring) :
  (In value (App.toggleOption sel value) <-> ~ In value sel)
  /\ (forall v, v <> value ->
        (In v (App.toggleOption sel value) <-> In v sel)).
Proof.
  unfold App.toggleOption.
  destruct (Array_includes sel value) eqn:E.
  - apply Array_includes_In in E. split.
    + rewrite filter_neq_In. tauto.
    + intros v Hv. rewrite filter_neq_In. tauto.
  - assert (Hn : ~ In value sel)
      by (intros H; apply Array_includes_In in H; congruence).
    split.
    + rewrite in_app_iff. simpl. tauto.
    + intros v Hv. rewrite in_app_iff. simpl. intuition congruence.
Qed.

(** X2. Toggling a value that is not selected and toggling it again gives
    the selection back, order included. *)
Theorem toggleOption_twice (sel : list jsstring) (value : jsstring)
        (Hnot : ~ In value sel) :
  App.toggleOption (App.toggleOption sel value) value = sel.
Proof.
  assert (E : Array_includes sel value = false).
  { apply not_true_is_false. rewrite Array_includes_In. exact Hnot. }
  unfold App.toggleOption at 2. rewrite E.
  unfold App.toggleOption.
  assert (E2 : Array_includes (sel ++ [value]) value = true).
  { apply Array_includes_In, in_app_iff. right. left. reflexivity. }
  rewrite E2. unfold Array_filter. rewrite filter_app. simpl.
  rewrite jsstring_eqb_refl. simpl. rewrite app_nil_r.
  clear E E2. induction sel as [|x sel IH]; simpl; [reflexivity|].
  assert (Hx : jsstring_eqb x value = false).
  { apply jsstring_eqb_neq. intros ->. apply Hnot. left. reflexivity. }
  rewrite Hx. simpl. f_equal. apply IH. intros H. apply Hnot. right. exact H.
Qed.

Lemma toggleOption_twice_witness :
  ~ In (js "Pago") [js "Gratis"]
  /\ App.toggleOption (App.toggleOption [js "Gratis"] (js "Pago")) (js "Pago")
     = [js "Gratis"].
Proof.
  assert (H : ~ In (js "Pago") [js "Gratis"])
    by (intros [H | []]; discriminate H).
  split; [exact H|].
  apply (toggleOption_twice [js "Gratis"] (js "Pago") H).
Defined.

Lemma filter_neq_length (sel : list jsstring) (value : jsstring) :
  NoDup sel -> In value sel ->
  S (List.length (Array_filter (fun x => negb (jsstring_eqb x value)) sel))
  = List.length sel.
Proof.
  unfold Array_filter.
  induction sel as [|x sel IH]; intros Hnd Hin; [destruct Hin|].
  inversion Hnd as [|? ? Hx Hnd']; subst. simpl.
  destruct (jsstring_eqb x value) eqn:E; simpl.
  - apply jsstring_eqb_eq in E. subst x. f_equal.
    clear IH Hin Hnd Hnd'. induction sel as [|y sel IH]; simpl; [reflexivity|].
    assert (Hy : jsstring_eqb y value = false).
    { apply jsstring_eqb_neq. intros ->. apply Hx. left. reflexivity. }
    rewrite Hy. simpl. f_equal. apply IH. intros H. apply Hx. right. exact H.
  - f_equal. apply IH; [exact Hnd'|].
    destruct Hin as [-> | H]; [|exact H].
    rewrite jsstring_eqb_refl in E. discriminate E.
Qed.

(** X3. On a selection without repetitions one click changes the number
    of selected values, hence the active-filter count, by exactly one: up
    when the value was not selected, down when it was. *)
Theorem toggleOption_length (sel : list jsstring) (value : jsstring)
        (Hnd : NoDup sel) :
  (~ In value sel ->
   List.length (App.toggleOption sel value) = S (List.length sel))
  /\ (In value sel ->
      S (List.length (App.toggleOption sel value)) = List.length sel).
Proof.
  unfold App.toggleOption. split; intros H.
  - assert (E : Array_includes sel value = false).
    { apply not_true_is_false. rewrite Array_includes_In. exact H. }
    rewrite E, length_app. simpl. lia.
  - assert (E : Array_includes sel value = true) by (apply Array_includes_In; exact H).
    rewrite E. apply filter_neq_length; assumption.
Qed.

Lemma toggleOption_length_witness :
  NoDup [js "Gratis"; js "Pago"]
  /\ S (List.length (App.toggleOption [js "Gratis"; js "Pago"] (js "Pago"))) = 2.
Proof.
  assert (Hnd : NoDup [js "Gratis"; js "Pago"]).
  { repeat constructor; simpl; [intros [H | []]; discriminate H | intros []]. }
  split; [exact Hnd|].
  apply (toggleOption_length [js "Gratis"; js "Pago"] (js "Pago") Hnd).
  right. left. reflexivity.
Defined.

(* ------------------------------------------------------------------ *)
(** ** The language toggle and the clear button *)

(** X4. [toggleLanguage] changes the language and nothing else, and
    toggling twice restores the state. *)
Theorem toggleLanguage_involutive (st : App.State) :
  App.toggleLanguage (App.toggleLanguage st) = st
  /\ App.language (App.toggleLanguage st) <> App.language st
  /\ App.setLanguage (App.language st) (App.toggleLanguage st) = st.
Proof.
  destruct st as [l q sc ss sr sp sa]; destruct l; repeat split; discriminate.
Qed.

Lemma sum_zero_nil (a b c d : list jsstring) :
  List.length a + List.length b + List.length c + List.length d = 0 ->
  a = [] /\ b = [] /\ c = [] /\ d = [].
Proof.
  destruct a, b, c, d; simpl; intros H; try discriminate H; try lia; auto.
Qed.

Lemma showClearButton_false (st : App.State) :
  AppView.showClearButton st = false
  <-> App.searchTerm st = [] /\ App.selectedCategories st = []
      /\ App.selectedStages st = [] /\ App.selectedRoles st = []
      /\ App.selectedPrices st = [].
Proof.
  unfold AppView.showClearButton, App.activeFilterCount.
  rewrite orb_false_iff, negb_false_iff, jsstring_eqb_eq, Nat.ltb_ge.
  split.
  - intros [Hc Hq]. split; [exact Hq|]. apply sum_zero_nil. lia.
  - intros [Hq [-> [-> [-> ->]]]]. simpl. split; [lia | exact Hq].
Qed.

Section ClearButton.

Variable toLowerCase : jsstring -> jsstring.
Hypothesis toLowerCase_empty : toLowerCase [] = [].

(** X5. The clear button is hidden exactly in the states that
    [clearFilters] leaves unchanged, and whenever the list shown is not
    the whole catalogue the button is there. *)
Theorem clear_button_when_filtered (C : list EduApp) (st : App.State) :
  (AppView.showClearButton st = false <-> App.clearFilters st = st)
  /\ (App.filteredApps toLowerCase C st <> C -> AppView.showClearButton st = true).
Proof.
  split.
  - rewrite showClearButton_false, clearFilters_fields. split.
    + intros [Hq [Hc [Hs [Hr Hp]]]].
      destruct st as [l q sc ss sr sp sa]; simpl in *. subst. reflexivity.
    + intros H. rewrite <- H. simpl. repeat split.
  - intros Hne. apply not_false_is_true. intros Hf.
    apply showClearButton_false in Hf as [Hq [Hc [Hs [Hr Hp]]]].
    apply Hne. unfold App.filteredApps, App.filter_catalog.
    rewrite Hq, Hc, Hs, Hr, Hp.
    apply filter_keeps_all. exact (passes_no_constraint toLowerCase toLowerCase_empty).
Qed.

End ClearButton.

Lemma clear_button_when_filtered_witness :
  latin1_toLowerCase [] = []
  /\ (App.filteredApps latin1_toLowerCase Sample.catalog
        (App.setSearchTerm (js "quiz") App.initial) <> Sample.catalog ->
      AppView.showClearButton (App.setSearchTerm (js "quiz") App.initial) = true).
Proof.
  split; [reflexivity|].
  apply (clear_button_when_filtered latin1_toLowerCase latin1_toLowerCase_empty
           Sample.catalog (App.setSearchTerm (js "quiz") App.initial)).
Defined.

(* ------------------------------------------------------------------ *)
(** ** How the result depends on the selections *)

(** [S'] constrains no more than [S]: it is empty, or it extends the
    non-empty [S]. *)
Lemma widen_category (S S' : list jsstring) (e : EduApp) :
  S' = [] \/ (S <> [] /\ incl S S') ->
  App.matchesCategory S e = true -> App.matchesCategory S' e = true.
Proof.
  rewrite !matchesCategory_iff. unfold FilterSpec.category_match.
  intros [-> | [Hne Hi]] [H | H]; auto; try contradiction.
Qed.

Lemma widen_price (S S' : list jsstring) (e : EduApp) :
  S' = [] \/ (S <> [] /\ incl S S') ->
  App.matchesPrice S e = true -> App.matchesPrice S' e = true.
Proof.
  rewrite !matchesPrice_iff. unfold FilterSpec.price_match.
  intros [-> | [Hne Hi]] [H | H]; auto; try contradiction.
Qed.

Lemma widen_stage (S S' : list jsstring) (e : EduApp) :
  S' = [] \/ (S <> [] /\ incl S S') ->
  App.matchesStage S e = true -> App.matchesStage S' e = true.
Proof.
  rewrite !matchesStage_iff. unfold FilterSpec.stage_match.
  intros [-> | [Hne Hi]] [H | [s [Hs H]]]; auto; try contradiction.
  right. exists s. auto.
Qed.

Lemma widen_role (S S' : list jsstring) (e : EduApp) :
  S' = [] \/ (S <> [] /\ incl S S') ->
  App.matchesRole S e = true -> App.matchesRole S' e = true.
Proof.
  rewrite !matchesRole_iff. unfold FilterSpec.role_match.
  intros [-> | [Hne Hi]] [H | [H | H]]; auto; try contradiction.
Qed.

(** X6. Within a dimension the selected values are alternatives: adding
    values to a non-empty selection, or emptying a selection, never removes
    an entry from the result. *)
Theorem widening_keeps_results
        (toLowerCase : jsstring -> jsstring) (C : list EduApp) (q : jsstring)
        (Sc Ss Sr Sp Sc' Ss' Sr' Sp' : list jsstring)
        (Hc : Sc' = [] \/ (Sc <> [] /\ incl Sc Sc'))
        (Hs : Ss' = [] \/ (Ss <> [] /\ incl Ss Ss'))
        (Hr : Sr' = [] \/ (Sr <> [] /\ incl Sr Sr'))
        (Hp : Sp' = [] \/ (Sp <> [] /\ incl Sp Sp')) :
  forall e, In e (App.filter_catalog toLowerCase C q Sc Ss Sr Sp) ->
            In e (App.filter_catalog toLowerCase C q Sc' Ss' Sr' Sp').
Proof.
  intros e. unfold App.filter_catalog, Array_filter, App.passes.
  rewrite !filter_In, !andb_true_iff.
  intros [HC [[[[Hq H1] H2] H3] H4]].
  repeat split; try assumption.
  - exact (widen_category Sc Sc' e Hc H1).
  - exact (widen_stage Ss Ss' e Hs H2).
  - exact (widen_role Sr Sr' e Hr H3).
  - exact (widen_price Sp Sp' e Hp H4).
Qed.

Lemma widening_keeps_results_witness :
  In Sample.quiz
     (App.filter_catalog latin1_toLowerCase Sample.catalog []
        [] [js "Primaria"] [js "Docente"] [])
  /\ In Sample.quiz
       (App.filter_catalog latin1_toLowerCase Sample.catalog []
          [] [js "Primaria"; js "Universidad"] [] []).
Proof.
  assert (H : In Sample.quiz
                (App.filter_catalog latin1_toLowerCase Sample.catalog []
                   [] [js "Primaria"] [js "Docente"] []))
    by (left; reflexivity).
  split; [exact H|].
  apply (widening_keeps_results latin1_toLowerCase Sample.catalog []
           [] [js "Primaria"] [js "Docente"] []
           [] [js "Primaria"; js "Universidad"] [] []); [| | | | exact H].
  - left. reflexivity.
  - right. split; [discriminate|]. intros x [<- | []]. left. reflexivity.
  - left. reflexivity.
  - left. reflexivity.
Defined.

Lemma all_categories (e : EduApp) :
  App.matchesCategory AppView.categoryValues e = true.
Proof. unfold App.matchesCategory. destruct (category e); reflexivity. Qed.

Lemma all_prices (e : EduApp) :
  App.matchesPrice AppView.priceValues e = true.
Proof. unfold App.matchesPrice. destruct (priceModel e); reflexivity. Qed.

Lemma all_stages (e : EduApp) :
  stages e <> [] -> App.matchesStage AppView.stageValues e = true.
Proof.
  intros H. unfold App.matchesStage.
  destruct (stages e) as [|s l]; [congruence|]. destruct s; reflexivity.
Qed.

(** X7. An entry passes every role selection that holds both [Docente]
    and [Alumnado], and it passes the selection of [Ambos] alone exactly
    when it is an entry for both. *)
Theorem role_selection_cases (S : list jsstring) (e : EduApp) :
  (In (UserRole_value TEACHER) S -> In (UserRole_value STUDENT) S ->
   App.matchesRole S e = true)
  /\ (App.matchesRole [UserRole_value BOTH] e = true <-> targetAudience e = BOTH).
Proof.
  split.
  - intros Ht Hs. apply matchesRole_iff. right.
    destruct (targetAudience e); [right; exact Ht | right; exact Hs | left; reflexivity].
  - destruct (targetAudience e) eqn:E; unfold App.matchesRole; rewrite E; simpl;
      split; intros H; try reflexivity; discriminate H.
Qed.

Lemma role_selection_cases_witness :
  In (UserRole_value TEACHER) [js "Alumnado"; js "Docente"]
  /\ In (UserRole_value STUDENT) [js "Alumnado"; js "Docente"]
  /\ App.matchesRole [js "Alumnado"; js "Docente"] Sample.gradebook = true.
Proof.
  assert (Ht : In (UserRole_value TEACHER) [js "Alumnado"; js "Docente"])
    by (right; left; reflexivity).
  assert (Hs : In (UserRole_value STUDENT) [js "Alumnado"; js "Docente"])
    by (left; reflexivity).
  split; [exact Ht | split; [exact Hs|]].
  exact (proj1 (role_selection_cases [js "Alumnado"; js "Docente"] Sample.gradebook)
               Ht Hs).
Defined.

Lemma filter_agree (p r : EduApp -> bool) (C : list EduApp) :
  (forall e, In e C -> p e = r e) -> Array_filter p C = Array_filter r C.
Proof.
  intros H. induction C as [|e C IH]; simpl; [reflexivity|].
  rewrite (H e (or_introl eq_refl)).
  rewrite IH by (intros x Hx; apply H; right; exact Hx). reflexivity.
Qed.

(** X8. When every entry of the catalogue has a stage, ticking every
    option of the four drop-downs shows what ticking none shows. *)
Theorem all_options_is_no_filter
        (toLowerCase : jsstring -> jsstring) (C : list EduApp) (q : jsstring)
        (Hstages : forall e, In e C -> stages e <> []) :
  App.filter_catalog toLowerCase C q AppView.categoryValues AppView.stageValues
                     AppView.roleValues AppView.priceValues
  = App.filter_catalog toLowerCase C q [] [] [] [].
Proof.
  unfold App.filter_catalog. apply filter_agree. intros e He.
  unfold App.passes.
  rewrite all_categories, all_prices, (all_stages e (Hstages e He)).
  assert (Hr : App.matchesRole AppView.roleValues e = true).
  { apply matchesRole_iff. right. destruct (targetAudience e);
      [right; left | right; right; left | left]; reflexivity. }
  rewrite Hr. reflexivity.
Qed.

Lemma all_options_is_no_filter_witness :
  (forall e, In e Sample.catalog -> stages e <> [])
  /\ App.filter_catalog latin1_toLowerCase Sample.catalog (js "a")
       AppView.categoryValues AppView.stageValues AppView.roleValues
       AppView.priceValues
     = App.filter_catalog latin1_toLowerCase Sample.catalog (js "a") [] [] [] [].
Proof.
  assert (H : forall e, In e Sample.catalog -> stages e <> []).
  { intros e [<- | [<- | [<- | []]]]; discriminate. }
  split; [exact H|].
  apply (all_options_is_no_filter latin1_toLowerCase Sample.catalog (js "a") H).
Defined.

(* ------------------------------------------------------------------ *)
(** ** The image chain, for every entry *)

Section ImageBounds.

Variable URL_hostname : jsstring -> option jsstring.
Variable app : EduApp.

(** The card after [n] failed loads. *)
Lemma onError_mount_same_source (host : jsstring) :
  URL_hostname (website app) = Some host ->
  favicon_url host = iconUrl app ->
  AppCard.onError URL_hostname app (AppCard.mount app) = AppCard.mount app.
Proof.
  intros Hp He. unfold AppCard.onError, AppCard.mount.
  cbn [AppCard.img AppCard.attempts].
  rewrite (first_failure_parsed URL_hostname app host Hp).
  cbn [AppCard.init showPlaceholder imgSrc negb andb].
  rewrite He, jsstring_eqb_refl, app_nil_r. reflexivity.
Qed.

(** The three shapes a card can have after [n] failures. *)
Lemma after_failures (n : nat) :
  let c := Nat.iter n (AppCard.onError URL_hostname app) (AppCard.mount app) in
  c = AppCard.mount app
  \/ (URL_hostname (website app) = None
      /\ c = {| AppCard.img := {| imgSrc := iconUrl app; showPlaceholder := true |};
                AppCard.attempts := [iconUrl app] |})
  \/ (exists host,
        URL_hostname (website app) = Some host
        /\ AppCard.attempts c = [iconUrl app; favicon_url host]
        /\ imgSrc (AppCard.img c) = favicon_url host).
Proof.
  cbv zeta. destruct n as [|n]; [left; reflexivity|].
  destruct (URL_hostname (website app)) as [host|] eqn:Hp.
  - destruct (jsstring_eqb (favicon_url host) (iconUrl app)) eqn:He.
    + left. apply jsstring_eqb_eq in He. apply iter_fixed_point.
      apply (onError_mount_same_source host Hp He).
    + right; right. exists host. apply jsstring_eqb_neq in He.
      destruct n as [|n].
      * destruct (chain_when_sources_differ URL_hostname app host 0 Hp He) as [H1 _].
        change (Nat.iter 1 (AppCard.onError URL_hostname app) (AppCard.mount app))
          with (AppCard.onError URL_hostname app (AppCard.mount app)).
        split; [reflexivity | split; [exact H1|]].
        unfold AppCard.onError, AppCard.mount. cbn [AppCard.img showPlaceholder AppCard.init].
        change ({| imgSrc := iconUrl app; showPlaceholder := false |}) with (AppCard.init app).
        rewrite (first_failure_parsed URL_hostname app host Hp). reflexivity.
      * destruct (chain_when_sources_differ URL_hostname app host n Hp He) as [_ H2].
        change (S (S n)) with (2 + n). rewrite H2. repeat split.
  - right; left. split; [reflexivity|].
    apply (chain_when_unparsed URL_hostname app n Hp).
Qed.

(** X9. Whatever the entry and however many loads fail, the card asks for
    at most two images: [iconUrl] first, and then at most the favicon
    address of the site's host. *)
Theorem at_most_two_image_requests (n : nat) :
  List.length (AppCard.attempts
                 (Nat.iter n (AppCard.onError URL_hostname app) (AppCard.mount app))) <= 2
  /\ hd_error (AppCard.attempts
                 (Nat.iter n (AppCard.onError URL_hostname app) (AppCard.mount app)))
     = Some (iconUrl app)
  /\ Forall (fun u => u = iconUrl app
                      \/ exists host, URL_hostname (website app) = Some host
                                      /\ u = favicon_url host)
            (AppCard.attempts
               (Nat.iter n (AppCard.onError URL_hostname app) (AppCard.mount app))).
Proof.
  destruct (after_failures n) as [E | [[_ E] | [host [Hp [E _]]]]]; rewrite E; simpl.
  - repeat split; [lia|].
    apply Forall_cons; [left; reflexivity | apply Forall_nil].
  - repeat split; [lia|].
    apply Forall_cons; [left; reflexivity | apply Forall_nil].
  - repeat split; [lia|].
    apply Forall_cons; [left; reflexivity|].
    apply Forall_cons; [|apply Forall_nil].
    right. exists host. split; [exact Hp | reflexivity].
Qed.

(** X10. The handler never hides the place-holder again: from any state
    in which it is shown, after any number of calls of [handleImgError],
    of the card or of the modal, it is still shown and the logo container
    renders the place-holder of the entry's category. *)
Theorem placeholder_is_final (st : ImgState) (n : nat)
        (Hshown : showPlaceholder st = true) :
  showPlaceholder (Nat.iter n (AppCard.handleImgError URL_hostname app) st) = true
  /\ AppCard.render app (Nat.iter n (AppCard.handleImgError URL_hostname app) st)
     = CategoryPlaceholder (category app)
  /\ showPlaceholder (Nat.iter n (AppDetailModal.handleImgError URL_hostname app) st)
     = true.
Proof.
  assert (H : showPlaceholder
                (Nat.iter n (AppCard.handleImgError URL_hostname app) st) = true).
  { induction n as [|k IH]; simpl; [exact Hshown|].
    apply placeholder_stays. exact IH. }
  split; [exact H | split].
  - unfold AppCard.render. rewrite H. reflexivity.
  - assert (E : forall x, AppDetailModal.handleImgError URL_hostname app x
                          = AppCard.handleImgError URL_hostname app x)
      by (intros x; reflexivity).
    clear H. induction n as [|k IH]; simpl; [exact Hshown|].
    rewrite E. apply placeholder_stays. exact IH.
Qed.

End ImageBounds.

Lemma placeholder_is_final_witness :
  showPlaceholder
    (AppCard.handleImgError simple_hostname Sample.gradebook
       (AppCard.init Sample.gradebook)) = true
  /\ AppCard.render Sample.gradebook
       (Nat.iter 3 (AppCard.handleImgError simple_hostname Sample.gradebook)
          (AppCard.handleImgError simple_hostname Sample.gradebook
             (AppCard.init Sample.gradebook)))
     = CategoryPlaceholder MANAGEMENT.
Proof.
  split; [reflexivity|].
  exact (proj1 (proj2 (placeholder_is_final simple_hostname Sample.gradebook
                         (AppCard.handleImgError simple_hostname Sample.gradebook
                            (AppCard.init Sample.gradebook)) 3 eq_refl))).
Defined.

(* ------------------------------------------------------------------ *)
(** ** [cleanText] on text that is already clean *)

Lemma sanitized_unit_supported (c : N) :
  AppDetailModal.supported c = true -> sanitized_unit c = c.
Proof.
  intros H. unfold sanitized_unit.
  assert (Hc : (c <= 255)%N).
  { unfold AppDetailModal.supported in H. apply orb_true_iff in H.
    destruct H as [H | H]; apply in_range_iff in H; lia. }
  repeat match goal with
         | |- context [N.eqb c ?k] =>
             destruct (N.eqb_spec c k) as [->|?]; [lia | cbn [orb]]
         end.
  rewrite H. reflexivity.
Qed.

Lemma sanitized_unit_is_supported (c : N) :
  AppDetailModal.supported (sanitized_unit c) = true.
Proof.
  unfold sanitized_unit.
  repeat match goal with
         | |- context [if ?b then _ else _] => destruct b eqn:?; try reflexivity
         end.
  assumption.
Qed.

(** X11. Text made of supported code units only, Spanish and Basque
    accented letters included, goes through [cleanText] unchanged. *)
Theorem cleanText_keeps_supported (s : jsstring)
        (Hs : Forall (fun c => AppDetailModal.supported c = true) s) :
  AppDetailModal.cleanText s = s.
Proof.
  rewrite cleanText_map. induction Hs as [|c s Hc _ IH]; simpl; [reflexivity|].
  rewrite (sanitized_unit_supported c Hc), IH. reflexivity.
Qed.

Lemma cleanText_keeps_supported_witness :
  Forall (fun c => AppDetailModal.supported c = true)
         (js "an" ++ [225%N] ++ js "lisis b" ++ [225%N] ++ js "sico")
  /\ AppDetailModal.cleanText (js "an" ++ [225%N] ++ js "lisis b" ++ [225%N] ++ js "sico")
     = js "an" ++ [225%N] ++ js "lisis b" ++ [225%N] ++ js "sico".
Proof.
  assert (H : Forall (fun c => AppDetailModal.supported c = true)
                     (js "an" ++ [225%N] ++ js "lisis b" ++ [225%N] ++ js "sico"))
    by (repeat constructor).
  split; [exact H|].
  apply (cleanText_keeps_supported _ H).
Defined.

(** X12. Cleaning twice is cleaning once, and cleaning a concatenation is
    concatenating the cleaned parts: a line may be cleaned whole or piece
    by piece. *)
Theorem cleanText_idempotent_additive (a b : jsstring) :
  AppDetailModal.cleanText (AppDetailModal.cleanText a) = AppDetailModal.cleanText a
  /\ AppDetailModal.cleanText (a ++ b)
     = AppDetailModal.cleanText a ++ AppDetailModal.cleanText b.
Proof.
  split.
  - rewrite !cleanText_map, map_map. apply map_ext. intros c.
    apply sanitized_unit_supported, sanitized_unit_is_supported.
  - rewrite !cleanText_map. apply map_app.
Qed.

(* ------------------------------------------------------------------ *)
(** ** The name of the exported file *)

Lemma replace_runs_no_whitespace (b : bool) (s : jsstring) :
  Forall (fun c => ModalView.is_whitespace c = false) (ModalView.replace_runs b s).
Proof.
  revert b. induction s as [|c s IH]; intros b; simpl; [constructor|].
  destruct (ModalView.is_whitespace c) eqn:E.
  - destruct b; [apply IH | constructor; [reflexivity | apply IH]].
  - constructor; [exact E | apply IH].
Qed.

Lemma replace_runs_length (b : bool) (s : jsstring) :
  List.length (ModalView.replace_runs b s) <= List.length s.
Proof.
  revert b. induction s as [|c s IH]; intros b; simpl; [lia|].
  destruct (ModalView.is_whitespace c); [destruct b|]; simpl;
    pose proof (IH true); pose proof (IH false); lia.
Qed.

(** X13. The file name handed to [doc.save] holds no white space at all,
    ends in [_Report.pdf], and is never longer than the entry's name plus
    that suffix. *)
Theorem reportFileName_no_whitespace (app : EduApp) :
  Forall (fun c => ModalView.is_whitespace c = false) (ModalView.reportFileName app)
  /\ (exists stem, ModalView.reportFileName app = stem ++ js "_Report.pdf"
                   /\ List.length stem <= List.length (name app))
  /\ List.length (ModalView.reportFileName app) <= List.length (name app) + 11.
Proof.
  unfold ModalView.reportFileName. split; [|split].
  - apply Forall_app. split; [apply replace_runs_no_whitespace|].
    repeat constructor.
  - exists (ModalView.replace_runs false (name app)).
    split; [reflexivity | apply replace_runs_length].
  - rewrite length_app. pose proof (replace_runs_length false (name app)).
    change (List.length (js "_Report.pdf")) with 11. lia.
Qed.

Lemma replace_runs_clean (b : bool) (s : jsstring) :
  Forall (fun c => ModalView.is_whitespace c = false) s ->
  ModalView.replace_runs b s = s.
Proof.
  intros H. revert b. induction H as [|c s Hc _ IH]; intros b; simpl; [reflexivity|].
  rewrite Hc, IH. reflexivity.
Qed.

(** X14. A name without white space is used as it is; a run of one or
    more white-space characters between two white-space-free parts gives
    one underscore. *)
Theorem reportFileName_cases (app : EduApp) (a b ws : jsstring) :
  (Forall (fun c => ModalView.is_whitespace c = false) (name app) ->
   ModalView.reportFileName app = name app ++ js "_Report.pdf")
  /\ (Forall (fun c => ModalView.is_whitespace c = false) a ->
      Forall (fun c => ModalView.is_whitespace c = false) b ->
      Forall (fun c => ModalView.is_whitespace c = true) ws ->
      ws <> [] ->
      name app = a ++ ws ++ b ->
      ModalView.reportFileName app = a ++ [95%N] ++ b ++ js "_Report.pdf").
Proof.
  unfold ModalView.reportFileName. split.
  - intros H. rewrite (replace_runs_clean false _ H). reflexivity.
  - intros Ha Hb Hw Hwne ->.
    assert (E : ModalView.replace_runs false (a ++ ws ++ b) = a ++ [95%N] ++ b).
    { induction Ha as [|c a Hc _ IH]; simpl.
      - destruct Hw as [|w ws Hw1 Hw]; [congruence|]. simpl. rewrite Hw1.
        f_equal. clear Hwne Hw1.
        induction Hw as [|w' ws Hw' _ IHw]; simpl.
        + apply (replace_runs_clean true b Hb).
        + rewrite Hw'. exact IHw.
      - rewrite Hc. f_equal. exact IH. }
    rewrite E, <- !app_assoc. reflexivity.
Qed.

Lemma reportFileName_cases_witness :
  Forall (fun c => ModalView.is_whitespace c = false) (name Sample.quiz)
  /\ ModalView.reportFileName Sample.quiz = js "QuizLand_Report.pdf".
Proof.
  assert (H : Forall (fun c => ModalView.is_whitespace c = false) (name Sample.quiz))
    by (repeat constructor).
  split; [exact H|].
  exact (proj1 (reportFileName_cases Sample.quiz [] [] []) H).
Defined.

(* ------------------------------------------------------------------ *)
(** ** The minimum age, away from zero *)

(** X15. For every entry whose [minAge] is not 0 the card and the detail
    view agree: the card has an age badge exactly when the detail cell is
    not the hyphen, and both print the same number. *)
Theorem minAge_surfaces_agree (app : EduApp) (Hnz : minAge app <> Some 0%N) :
  (AppCard.ageBadge app = None <-> AppDetailModal.minAgeCell app = js "-")
  /\ (forall n, minAge app = Some n ->
        AppDetailModal.minAgeCell app = Number_toString n ++ js "+"
        /\ exists style, AppCard.ageBadge app = Some (style, js "+" ++ Number_toString n)).
Proof.
  unfold AppCard.ageBadge, AppDetailModal.minAgeCell.
  destruct (minAge app) as [n|] eqn:E.
  - assert (Hn : N.eqb n 0 = false) by (apply N.eqb_neq; congruence).
    simpl. rewrite Hn. simpl. split.
    + split; [discriminate|]. intros H.
      change (js "-") with ([] ++ [45%N]) in H. change (js "+") with [43%N] in H.
      apply app_inj_tail in H as [_ H]. discriminate H.
    + intros m [= <-]. split; [reflexivity | eexists; reflexivity].
  - simpl. split; [tauto | discriminate].
Qed.

Lemma minAge_surfaces_agree_witness :
  minAge Sample.flashcards <> Some 0%N
  /\ (AppCard.ageBadge Sample.flashcards = None
      <-> AppDetailModal.minAgeCell Sample.flashcards = js "-").
Proof.
  assert (H : minAge Sample.flashcards <> Some 0%N) by discriminate.
  split; [exact H|].
  exact (proj1 (minAge_surfaces_agree Sample.flashcards H)).
Defined.

(* ------------------------------------------------------------------ *)
(** ** The review effect: which answers are shown *)

Module ReviewInvariants.

Import AppDetailModal.

Lemma same_app_trans (a b c : EduApp) :
  same_app a b = true -> same_app b c = true -> same_app a c = true.
Proof.
  unfold same_app. rewrite !jsstring_eqb_eq. congruence.
Qed.

Lemma Language_eqb_eq (a b : Language) : Language_eqb a b = true <-> a = b.
Proof. destruct a, b; simpl; split; congruence. Qed.

Section WithTranslations.

Variable modal_error : Language -> jsstring.

Lemma settle_props (k : nat) (o : option AIReview) (m : Modal) :
  m_app (settle modal_error k o m) = m_app m
  /\ m_language (settle modal_error k o m) = m_language m.
Proof.
  unfold settle. destruct (nth_error (rev (requests m)) k) as [r|]; [|split; reflexivity].
  destruct (isMounted r); [destruct o|]; split; reflexivity.
Qed.

Lemma newest_current (m : Modal) :
  reachable modal_error m -> ModalView.newest_is_current m.
Proof.
  unfold ModalView.newest_is_current.
  induction 1 as [a l | a l m Hm IH | k o m Hm IH].
  - eexists; eexists. split; [reflexivity|]. simpl.
    repeat split. apply ReviewFacts.same_app_refl.
  - destruct IH as [r [rs [Hr [Hmt [Hl Ha]]]]]. unfold rerender.
    destruct (same_app (m_app m) a && Language_eqb (m_language m) l) eqn:E.
    + apply andb_true_iff in E as [Ea El]. apply Language_eqb_eq in El.
      exists r, rs. simpl. repeat split; try assumption; [congruence|].
      exact (same_app_trans _ _ _ Ha Ea).
    + eexists; eexists. split; [reflexivity|]. simpl.
      repeat split. apply ReviewFacts.same_app_refl.
  - destruct IH as [r [rs [Hr [Hmt [Hl Ha]]]]].
    destruct (settle_props k o m) as [Ea El].
    exists r, rs. rewrite (ReviewFacts.settle_requests modal_error), Ea, El.
    repeat split; assumption.
Qed.

(** X16. Only the answer to the newest call can change what the modal
    shows, and that call was made for the entry and the language the modal
    displays now: an answer to any earlier call is dropped. *)
Theorem only_current_answer_applies (m : Modal) (k : nat) (o : option AIReview)
        (Hm : reachable modal_error m)
        (Hchange : settle modal_error k o m <> m) :
  S k = List.length (requests m)
  /\ exists r, hd_error (requests m) = Some r
               /\ req_language r = m_language m
               /\ same_app (req_app r) (m_app m) = true.
Proof.
  destruct (newest_current m Hm) as [r [rs [Hr [Hmt [Hl Ha]]]]].
  pose proof (ReviewFacts.older_calls_stale modal_error m Hm) as Hst.
  rewrite Hr in Hst. simpl in Hst.
  split; [|exists r; rewrite Hr; repeat split; assumption].
  assert (Hk : exists r', nth_error (rev (requests m)) k = Some r'
                          /\ isMounted r' = true).
  { unfold settle in Hchange.
    destruct (nth_error (rev (requests m)) k) as [r'|]; [|congruence].
    exists r'. split; [reflexivity|].
    destruct (isMounted r'); [reflexivity | congruence]. }
  destruct Hk as [r' [Hn Hm']]. rewrite Hr in Hn |- *. simpl in Hn |- *.
  destruct (Nat.lt_ge_cases k (List.length (rev rs))) as [Hlt | Hge].
  - rewrite nth_error_app1 in Hn by exact Hlt.
    apply nth_error_In in Hn. rewrite <- in_rev in Hn.
    rewrite Forall_forall in Hst. specialize (Hst r' Hn).
    unfold stale in Hst. congruence.
  - assert (Hb : k < List.length (rev rs ++ [r]))
      by (apply nth_error_Some; congruence).
    rewrite length_app in Hb. simpl in Hb. rewrite length_rev in Hb, Hge. lia.
Qed.

(** X17. After the clean-up of the effect, which is what closing the
    modal runs, no answer changes the state any more, whenever it arrives
    and whatever it is. *)
Theorem no_answer_after_cleanup (m : Modal) (k : nat) (o : option AIReview)
        (Hm : reachable modal_error m) :
  settle modal_error k o (cleanup m) = cleanup m.
Proof.
  apply ReviewFacts.settle_stale. intros r Hn.
  apply nth_error_In in Hn. rewrite <- in_rev in Hn.
  pose proof (ReviewFacts.cleanup_stale m
                (ReviewFacts.older_calls_stale modal_error m Hm)) as Hs.
  rewrite Forall_forall in Hs. apply Hs. exact Hn.
Qed.

(** X18. Showing another entry, or the same entry in another language,
    abandons every call made so far: however late their answers arrive,
    they do not touch the state of the new entry. *)
Theorem switching_drops_old_answers (m : Modal) (a : EduApp) (l : Language)
        (k : nat) (o : option AIReview)
        (Hm : reachable modal_error m)
        (Hnew : same_app (m_app m) a && Language_eqb (m_language m) l = false)
        (Hold : k < List.length (requests m)) :
  settle modal_error k o (rerender a l m) = rerender a l m
  /\ hd_error (requests (rerender a l m))
     = Some {| req_app := a; req_language := l; isMounted := true |}
  /\ loading (rerender a l m) = true
  /\ analysis (rerender a l m) = None.
Proof.
  pose proof (ReviewFacts.rerender_changed a l m Hnew) as Hr.
  split; [|split; [rewrite Hr; reflexivity | unfold rerender; rewrite Hnew; split; reflexivity]].
  apply ReviewFacts.settle_stale. intros r Hn.
  rewrite Hr in Hn. cbn [rev] in Hn.
  rewrite nth_error_app1 in Hn
    by (rewrite length_rev, ReviewFacts.cleanup_length; exact Hold).
  apply nth_error_In in Hn. rewrite <- in_rev in Hn.
  pose proof (ReviewFacts.cleanup_stale m
                (ReviewFacts.older_calls_stale modal_error m Hm)) as Hs.
  rewrite Forall_forall in Hs. apply Hs. exact Hn.
Qed.


End WithTranslations.

End ReviewInvariants.

Lemma only_current_answer_applies_witness :
  AppDetailModal.reachable (fun _ => js "error") (AppDetailModal.mount Sample.quiz Lang_es)
  /\ AppDetailModal.settle (fun _ => js "error") 0 (Some Sample.review)
       (AppDetailModal.mount Sample.quiz Lang_es)
     <> AppDetailModal.mount Sample.quiz Lang_es
  /\ 1 = List.length (AppDetailModal.requests (AppDetailModal.mount Sample.quiz Lang_es)).
Proof.
  assert (Hm : AppDetailModal.reachable (fun _ => js "error")
                 (AppDetailModal.mount Sample.quiz Lang_es)) by constructor.
  assert (Hc : AppDetailModal.settle (fun _ => js "error") 0 (Some Sample.review)
                 (AppDetailModal.mount Sample.quiz Lang_es)
               <> AppDetailModal.mount Sample.quiz Lang_es) by discriminate.
  split; [exact Hm | split; [exact Hc|]].
  exact (proj1 (ReviewInvariants.only_current_answer_applies
                  (fun _ => js "error") _ 0 (Some Sample.review) Hm Hc)).
Defined.

Lemma no_answer_after_cleanup_witness :
  AppDetailModal.reachable (fun _ => js "error") (AppDetailModal.mount Sample.quiz Lang_es)
  /\ AppDetailModal.settle (fun _ => js "error") 0 (Some Sample.review)
       (AppDetailModal.cleanup (AppDetailModal.mount Sample.quiz Lang_es))
     = AppDetailModal.cleanup (AppDetailModal.mount Sample.quiz Lang_es).
Proof.
  assert (Hm : AppDetailModal.reachable (fun _ => js "error")
                 (AppDetailModal.mount Sample.quiz Lang_es)) by constructor.
  split; [exact Hm|].
  exact (ReviewInvariants.no_answer_after_cleanup
           (fun _ => js "error") _ 0 (Some Sample.review) Hm).
Defined.

Lemma switching_drops_old_answers_witness :
  AppDetailModal.reachable (fun _ => js "error") (AppDetailModal.mount Sample.quiz Lang_es)
  /\ AppDetailModal.same_app Sample.quiz Sample.gradebook
     && Language_eqb Lang_es Lang_es = false
  /\ 0 < 1
  /\ AppDetailModal.settle (fun _ => js "error") 0 (Some Sample.review)
       (AppDetailModal.rerender Sample.gradebook Lang_es
          (AppDetailModal.mount Sample.quiz Lang_es))
     = AppDetailModal.rerender Sample.gradebook Lang_es
         (AppDetailModal.mount Sample.quiz Lang_es).
Proof.
  assert (Hm : AppDetailModal.reachable (fun _ => js "error")
                 (AppDetailModal.mount Sample.quiz Lang_es)) by constructor.
  split; [exact Hm | split; [reflexivity | split; [lia|]]].
  exact (proj1 (ReviewInvariants.switching_drops_old_answers
                  (fun _ => js "error") _ Sample.gradebook Lang_es 0
                  (Some Sample.review) Hm eq_refl (Nat.lt_0_succ 0))).
Defined.


(* ------------------------------------------------------------------ *)
(** ** What the card shows *)

Lemma firstn_full {A} (n : nat) (l : list A) :
  firstn n l = l <-> List.length l <= n.
Proof.
  split.
  - intros H. rewrite <- H at 1. rewrite length_firstn. lia.
  - apply firstn_all2.
Qed.

(** X20. The card shows at most three feature tags and at most four stage
    tags, always the first ones in order, and the dots (the plus sign)
    appear exactly when a feature (a stage) is left out. *)
Theorem card_tags_truncated (language : Language) (app : EduApp) :
  List.length (CardView.featureTags language app) <= 3
  /\ (exists rest, CardView.localized_list (features app) language
                   = CardView.featureTags language app ++ rest)
  /\ (CardView.featureDots language app = false
      <-> CardView.featureTags language app
          = CardView.localized_list (features app) language)
  /\ List.length (CardView.stageTags app) <= 4
  /\ (exists rest, stages app = CardView.stageTags app ++ rest)
  /\ (CardView.stagePlus app = false <-> CardView.stageTags app = stages app).
Proof.
  unfold CardView.featureTags, CardView.featureDots, CardView.stageTags,
    CardView.stagePlus.
  rewrite !Nat.ltb_ge, !firstn_full. repeat split; try tauto.
  - apply firstn_le_length.
  - eexists. symmetry. apply firstn_skipn.
  - apply firstn_le_length.
  - eexists. symmetry. apply firstn_skipn.
Qed.

(** X21. The price filter offers exactly the three price models, and the
    label of an option is the label the card prints on the entries that
    option selects. *)
Theorem price_labels_agree (t : CardStrings) (app : EduApp) :
  AppView.priceValues = List.map PriceModel_value [Gratis; Freemium; Pago]
  /\ In (PriceModel_value (priceModel app)) AppView.priceValues
  /\ AppView.priceOptionLabel t (PriceModel_value (priceModel app))
     = CardView.getPriceLabel t app
  /\ (forall p, In p AppView.priceValues ->
        App.matchesPrice [p] app = true ->
        AppView.priceOptionLabel t p = CardView.getPriceLabel t app).
Proof.
  split; [reflexivity|]. split; [|split].
  - destruct (priceModel app); simpl; auto.
  - unfold AppView.priceOptionLabel, CardView.getPriceLabel.
    destruct (priceModel app); reflexivity.
  - intros p Hp Hm. apply matchesPrice_iff in Hm.
    destruct Hm as [Hm | [Hm | []]]; [discriminate Hm|]. subst p.
    unfold AppView.priceOptionLabel, CardView.getPriceLabel.
    destruct (priceModel app); reflexivity.
Qed.

(** X22. The card and the modal draw the same place-holder icon for an
    entry, the six categories have six different icons, and the three
    audiences have three different role icons. *)
Theorem placeholder_icons (app other : EduApp) :
  fst (fst (CardView.renderCategoryPlaceholder app))
  = fst (ModalView.renderCategoryPlaceholder app)
  /\ (fst (ModalView.renderCategoryPlaceholder app)
      = fst (ModalView.renderCategoryPlaceholder other)
      <-> category app = category other)
  /\ (CardView.getRoleIcon app = CardView.getRoleIcon other
      <-> targetAudience app = targetAudience other).
Proof.
  unfold CardView.renderCategoryPlaceholder, ModalView.renderCategoryPlaceholder,
    CardView.getRoleIcon.
  split; [destruct (category app); reflexivity|]. split.
  - destruct (category app), (category other); simpl; split; congruence.
  - destruct (targetAudience app), (targetAudience other); simpl; split; congruence.
Qed.

(* ------------------------------------------------------------------ *)
(** ** The description sent to the model *)

(** X23. The description put in the prompt is the one of the language
    asked for unless that one is empty, in which case it is the Spanish
    one; it is empty only when the Spanish description is empty too. *)
Theorem promptDescription_fallback (app : EduApp) (lang : Language) :
  (localized (description app) lang <> [] ->
   geminiService.promptDescription app lang = localized (description app) lang)
  /\ (localized (description app) lang = [] ->
      geminiService.promptDescription app lang = es (description app))
  /\ (geminiService.promptDescription app lang = [] -> es (description app) = [])
  /\ geminiService.promptDescription app Lang_es = es (description app).
Proof.
  unfold geminiService.promptDescription.
  repeat split.
  - destruct (localized (description app) lang); congruence.
  - intros ->. reflexivity.
  - destruct lang; simpl; destruct (es (description app)) eqn:E1;
      try destruct (eu (description app)) eqn:E2; congruence.
  - simpl. destruct (es (description app)); reflexivity.
Qed.

(* ------------------------------------------------------------------ *)
(** ** Keys and selections stay free of repetitions *)

Lemma filter_map_NoDup {K} (key : EduApp -> K) (p : EduApp -> bool) (C : list EduApp) :
  NoDup (List.map key C) -> NoDup (List.map key (Array_filter p C)).
Proof.
  unfold Array_filter.
  induction C as [|e C IH]; simpl; intros H; [constructor|].
  inversion H as [|? ? Hn Hd]; subst.
  destruct (p e); [|exact (IH Hd)].
  simpl. constructor; [|exact (IH Hd)].
  intros Hin. apply Hn. apply in_map_iff in Hin as [x [Hx Hf]].
  apply in_map_iff. exists x. split; [exact Hx|].
  apply filter_In in Hf. apply Hf.
Qed.

(** X24. When the ids of the catalogue are pairwise different, so are
    the ids of the cards rendered, which the list uses as keys: the filter
    never shows an entry twice. *)
Theorem rendered_keys_distinct
        (toLowerCase : jsstring -> jsstring) (C : list EduApp) (st : App.State)
        (Hids : NoDup (List.map id C)) :
  NoDup (List.map id (App.filteredApps toLowerCase C st))
  /\ List.length (App.filteredApps toLowerCase C st) <= List.length C.
Proof.
  unfold App.filteredApps, App.filter_catalog. split.
  - apply filter_map_NoDup. exact Hids.
  - apply filter_length_le.
Qed.

Lemma rendered_keys_distinct_witness :
  NoDup (List.map id Sample.catalog)
  /\ NoDup (List.map id (App.filteredApps latin1_toLowerCase Sample.catalog
                           (App.setSelectedRoles [js "Alumnado"] App.initial))).
Proof.
  assert (H : NoDup (List.map id Sample.catalog)).
  { repeat constructor; simpl; intuition discriminate. }
  split; [exact H|].
  exact (proj1 (rendered_keys_distinct latin1_toLowerCase Sample.catalog
                  (App.setSelectedRoles [js "Alumnado"] App.initial) H)).
Defined.

(** X25. Whatever sequence of options is clicked, starting from the empty
    selection, the selection never holds a value twice, and a value is
    selected exactly when it was clicked an odd number of times. *)
Theorem selection_after_clicks (clicks : list jsstring) (value : jsstring) :
  NoDup (fold_left App.toggleOption clicks [])
  /\ (In value (fold_left App.toggleOption clicks [])
      <-> Nat.odd (count_occ (list_eq_dec N.eq_dec) clicks value) = true).
Proof.
  assert (G : forall sel, NoDup sel ->
              NoDup (fold_left App.toggleOption clicks sel)
              /\ (In value (fold_left App.toggleOption clicks sel)
                  <-> xorb (Array_includes sel value)
                           (Nat.odd (count_occ (list_eq_dec N.eq_dec) clicks value))
                      = true)).
  { induction clicks as [|c clicks IH]; intros sel Hnd; simpl.
    - split; [exact Hnd|]. rewrite xorb_false_r, Array_includes_In. reflexivity.
    - destruct (IH (App.toggleOption sel c) (toggleOption_NoDup sel c Hnd)) as [H1 H2].
      split; [exact H1|]. rewrite H2. clear IH H1 H2.
      destruct (list_eq_dec N.eq_dec c value) as [-> | Hne].
      + rewrite Nat.odd_succ, <- Nat.negb_odd.
        assert (E : Array_includes (App.toggleOption sel value) value
                    = negb (Array_includes sel value)).
        { unfold App.toggleOption. destruct (Array_includes sel value) eqn:Ei; simpl.
          - apply not_true_is_false. rewrite Array_includes_In, filter_neq_In. tauto.
          - apply Array_includes_In, in_app_iff. right. left. reflexivity. }
        rewrite E.
        destruct (Array_includes sel value),
          (Nat.odd (count_occ (list_eq_dec N.eq_dec) clicks value)); simpl; tauto.
      + assert (E : Array_includes (App.toggleOption sel c) value
                    = Array_includes sel value).
        { apply eq_true_iff_eq. rewrite !Array_includes_In.
          unfold App.toggleOption. destruct (Array_includes sel c).
          - rewrite filter_neq_In. intuition congruence.
          - rewrite in_app_iff. simpl. intuition congruence. }
        rewrite E. reflexivity. }
  destruct (G [] (NoDup_nil _)) as [H1 H2]. split; [exact H1|].
  rewrite H2. reflexivity.
Qed.
